(** * Control-plane elastic IP reconciliation

    A shallow embedding of [eip_controlplane_reconciliation.go].  The source
    file carries two variants of the same manager: the older one of package
    [packet] and the newer one of package [metal].  Both are embedded below,
    each in a module of its own, over a shared model of the collaborators
    (cloud API, instance lookups, HTTP client, orchestrator object client).

    Every call that leaves the process is written to a chronological trace
    together with the answer it got; the collaborators are oracles that may
    look at the whole trace so far, so their answers may change over time. *)

From Stdlib Require Import ZArith.
From stdpp Require Import base tactics option list strings gmap pretty.

Local Open Scope Z_scope.
Local Open Scope string_scope.
Local Open Scope list_scope.

(** ** Data model *)

(** A Go [error] value, identified by the text of its [Error()] method.  A nil
    error is [None] at type [option error]. *)
Record error := Err { errMsg : string }.

#[global] Instance error_eq_dec : EqDecision error.
Proof. solve_decision. Defined.

(** [packngo.IPAddressAssignment], as far as the code reads it. *)
Record IPAddressAssignment := { asgID : string; asgHref : string }.

(** [packngo.IPAddressReservation], as far as the code reads it. *)
Record IPAddressReservation := {
  resID : string;
  resAddress : string;
  resTags : list string;
  resAssignments : list IPAddressAssignment
}.

(** [v1.NodeAddress]. *)
Record NodeAddress := { addrType : string; addrAddress : string }.

(** [v1.Node], as far as the code reads it. *)
Record Node := { nodeName : string; nodeLabels : gmap string string }.

(** [http.Response]: the status code, and whether [Body] is non-nil. *)
Record Response := { StatusCode : Z; hasBody : bool }.

Definition StatusOK : Z := 200.

(** [intstr.IntOrString]. *)
Record IntOrString := { iosType : Z; IntVal : Z; StrVal : string }.

(** [v1.ServicePort]. *)
Record ServicePort := {
  spName : string;
  spProtocol : string;
  Port : Z;
  TargetPort : IntOrString;
  NodePort : Z
}.

(** [metav1.ObjectMeta], with the fields that are not named by the code kept
    as [metaResourceVersion] and [metaUID]. *)
Record ObjectMeta := {
  Name : string;
  Namespace : string;
  Labels : gmap string string;
  Annotations : gmap string string;
  metaResourceVersion : string;
  metaUID : string
}.

(** [v1.ServiceSpec]. *)
Record ServiceSpec := {
  Ports : list ServicePort;
  Selector : gmap string string;
  ClusterIP : string;
  specType : string;
  ExternalIPs : list string;
  LoadBalancerIP : string;
  SessionAffinity : string
}.

Record LoadBalancerIngress := { ingIP : string; ingHostname : string }.

(** [v1.ServiceStatus] (its [LoadBalancer.Ingress] list). *)
Record ServiceStatus := { Ingress : list LoadBalancerIngress }.

(** [v1.Service]. *)
Record Service := {
  svcMeta : ObjectMeta;
  Spec : ServiceSpec;
  Status : ServiceStatus
}.

Record EndpointAddress := { eaIP : string; eaHostname : string }.
Record EndpointPort := { epName : string; epPort : Z; epProtocol : string }.

(** [v1.EndpointSubset]. *)
Record EndpointSubset := {
  esAddresses : list EndpointAddress;
  esNotReadyAddresses : list EndpointAddress;
  esPorts : list EndpointPort
}.

(** [v1.Endpoints]. *)
Record Endpoints := { epMeta : ObjectMeta; Subsets : list EndpointSubset }.

(** Modelled from the spec: the [UpdateMode] type is declared outside this
    file; the spec tells a mode that expects a full pass ([ModeSync]) from the
    modes that tolerate incremental input. *)
Inductive UpdateMode := ModeAdd | ModeRemove | ModeSync.

#[global] Instance UpdateMode_eq_dec : EqDecision UpdateMode.
Proof. solve_decision. Defined.

(** ** Constants of the source *)

Definition controlPlaneLabel : string := "node-role.kubernetes.io/master".
Definition externalServiceName : string :=
  "cloud-provider-equinix-metal-kubernetes-external".
Definition externalServiceNamespace : string := "kube-system".
Definition metallbAnnotation : string := "metallb.universe.tf/address-pool".
Definition metallbDisabledtag : string :=
  "disabled-metallb-do-not-use-any-address-pool".
Definition ServiceTypeLoadBalancer : string := "LoadBalancer".

(** [fmt.Sprintf("https://%s:%d/healthz", address, port)]. *)
Definition healthzURL (address : string) (port : Z) : string :=
  "https://" +:+ address +:+ ":" +:+ pretty port +:+ "/healthz".

(** ** Events and collaborators *)

Inductive event :=
| EvList (project : string) (r : list IPAddressReservation * option error)
| EvDo (url : string) (r : error + Response)
| EvBodyClose (url : string)
| EvNodeAddresses (name : string) (r : error + list NodeAddress)
| EvInstanceID (name : string) (r : error + string)
| EvUnassign (id : string) (r : option error)
| EvAssign (device address : string) (r : option error)
| EvEndpointsGet (ns name : string) (r : error + Endpoints)
| EvEndpointsUpdate (ns : string) (ep : Endpoints) (r : option error)
| EvEndpointsCreate (ns : string) (ep : Endpoints) (r : option error)
| EvServicesGet (ns name : string) (r : error + Service)
| EvServicesUpdate (ns : string) (svc : Service) (r : option error)
| EvServicesCreate (ns : string) (svc : Service) (r : option error)
| EvServicesUpdateStatus (ns : string) (svc : Service) (r : option error).

(** The collaborators.  Each oracle sees the trace so far.  A Go result
    [(x, err)] whose [x] is only read when [err] is nil is a sum; the
    reservation listing keeps both components because the code returns its
    [err] variable after having looked at the list. *)
Record env := {
  http_NewRequest : string → option error;
  ipResSvr_List : list event → string → list IPAddressReservation * option error;
  httpClient_Do : list event → string → error + Response;
  instances_NodeAddresses : list event → string → error + list NodeAddress;
  instances_InstanceID : list event → string → error + string;
  deviceIPSrv_Unassign : list event → string → option error;
  deviceIPSrv_Assign : list event → string → string → option error;
  endpoints_Get : list event → string → string → error + Endpoints;
  endpoints_Update : list event → string → Endpoints → option error;
  endpoints_Create : list event → string → Endpoints → option error;
  services_Get : list event → string → string → error + Service;
  services_Update : list event → string → Service → option error;
  services_Create : list event → string → Service → option error;
  services_UpdateStatus : list event → string → Service → option error
}.

(** Modelled from the spec: [ipReservationByAllTags] is defined outside this
    file.  It returns the first reservation of the listing whose tag set is a
    superset of the required tags, and nil when there is none. *)
Definition ipReservationByAllTags (tags : list string)
    (ips : list IPAddressReservation) : option IPAddressReservation :=
  List.find (λ r, forallb (λ t, bool_decide (t ∈ resTags r)) tags) ips.

(** Modelled from the spec: [ipReservationByTags], the resolver of the older
    variant, is defined outside this file; same contract. *)
Definition ipReservationByTags (tags : list string)
    (ips : list IPAddressReservation) : option IPAddressReservation :=
  ipReservationByAllTags tags ips.

(** ** The state monad of a run *)

Record state (Mgr : Type) := St { mgr : Mgr; trace : list event }.
Arguments St {Mgr} _ _.
Arguments mgr {Mgr} _.
Arguments trace {Mgr} _.

Definition M (Mgr A : Type) : Type := state Mgr → A * state Mgr.

#[global] Instance M_ret {Mgr} : MRet (M Mgr) := λ A a s, (a, s).
#[global] Instance M_bind {Mgr} : MBind (M Mgr) :=
  λ A B k c s, let (a, s') := c s in k a s'.

Definition get_mgr {Mgr} : M Mgr Mgr := λ s, (mgr s, s).
Definition put_mgr {Mgr} (m : Mgr) : M Mgr unit := λ s, (tt, St m (trace s)).

(** An external call: ask the oracle at the present trace, log call and answer. *)
Definition call {Mgr A} (ask : list event → A) (ev : A → event) : M Mgr A :=
  λ s, let r := ask (trace s) in (r, St (mgr s) (trace s ++ [ev r])).

Definition emit {Mgr} (ev : event) : M Mgr unit :=
  λ s, (tt, St (mgr s) (trace s ++ [ev])).

Section Calls.
Context {Mgr : Type} (E : env).

Definition List_ (project : string) : M Mgr _ :=
  call (λ h, ipResSvr_List E h project) (EvList project).
Definition Do (url : string) : M Mgr _ :=
  call (λ h, httpClient_Do E h url) (EvDo url).
Definition BodyClose (url : string) : M Mgr unit := emit (EvBodyClose url).
Definition NodeAddresses (name : string) : M Mgr _ :=
  call (λ h, instances_NodeAddresses E h name) (EvNodeAddresses name).
Definition InstanceID (name : string) : M Mgr _ :=
  call (λ h, instances_InstanceID E h name) (EvInstanceID name).
Definition Unassign (id : string) : M Mgr _ :=
  call (λ h, deviceIPSrv_Unassign E h id) (EvUnassign id).
Definition Assign (device address : string) : M Mgr _ :=
  call (λ h, deviceIPSrv_Assign E h device address) (EvAssign device address).
Definition EndpointsGet (ns name : string) : M Mgr _ :=
  call (λ h, endpoints_Get E h ns name) (EvEndpointsGet ns name).
Definition EndpointsUpdate (ns : string) (ep : Endpoints) : M Mgr _ :=
  call (λ h, endpoints_Update E h ns ep) (EvEndpointsUpdate ns ep).
Definition EndpointsCreate (ns : string) (ep : Endpoints) : M Mgr _ :=
  call (λ h, endpoints_Create E h ns ep) (EvEndpointsCreate ns ep).
Definition ServicesGet (ns name : string) : M Mgr _ :=
  call (λ h, services_Get E h ns name) (EvServicesGet ns name).
Definition ServicesUpdate (ns : string) (svc : Service) : M Mgr _ :=
  call (λ h, services_Update E h ns svc) (EvServicesUpdate ns svc).
Definition ServicesCreate (ns : string) (svc : Service) : M Mgr _ :=
  call (λ h, services_Create E h ns svc) (EvServicesCreate ns svc).
Definition ServicesUpdateStatus (ns : string) (svc : Service) : M Mgr _ :=
  call (λ h, services_UpdateStatus E h ns svc) (EvServicesUpdateStatus ns svc).
End Calls.

(** The loop of [reconcileNodes] that keeps the nodes carrying the
    control-plane label, appending them one by one. *)
Definition cpNodesOf (nodes : list Node) : list Node :=
  foldl (λ cpNodes n,
           match nodeLabels n !! controlPlaneLabel with
           | Some _ => cpNodes ++ [n]
           | None => cpNodes
           end) [] nodes.

(** Field updates on the orchestrator objects. *)
Definition set_Port (p : Z) (sp : ServicePort) : ServicePort :=
  {| spName := spName sp; spProtocol := spProtocol sp; Port := p;
     TargetPort := TargetPort sp; NodePort := NodePort sp |}.
Definition set_Ports (ps : list ServicePort) (sp : ServiceSpec) : ServiceSpec :=
  {| Ports := ps; Selector := Selector sp; ClusterIP := ClusterIP sp;
     specType := specType sp; ExternalIPs := ExternalIPs sp;
     LoadBalancerIP := LoadBalancerIP sp;
     SessionAffinity := SessionAffinity sp |}.
Definition set_LoadBalancerIP (ip : string) (sp : ServiceSpec) : ServiceSpec :=
  {| Ports := Ports sp; Selector := Selector sp; ClusterIP := ClusterIP sp;
     specType := specType sp; ExternalIPs := ExternalIPs sp;
     LoadBalancerIP := ip; SessionAffinity := SessionAffinity sp |}.
Definition set_Spec (sp : ServiceSpec) (svc : Service) : Service :=
  {| svcMeta := svcMeta svc; Spec := sp; Status := Status svc |}.
Definition set_Status (st : ServiceStatus) (svc : Service) : Service :=
  {| svcMeta := svcMeta svc; Spec := Spec svc; Status := st |}.
Definition set_ExternalIPs (ips : list string) (sp : ServiceSpec) : ServiceSpec :=
  {| Ports := Ports sp; Selector := Selector sp; ClusterIP := ClusterIP sp;
     specType := specType sp; ExternalIPs := ips;
     LoadBalancerIP := LoadBalancerIP sp;
     SessionAffinity := SessionAffinity sp |}.
Definition set_Subsets (ss : list EndpointSubset) (ep : Endpoints) : Endpoints :=
  {| epMeta := epMeta ep; Subsets := ss |}.

(** [x.DeepCopy()]: a value of the embedding shares nothing, so the copy is
    the value. *)
Definition DeepCopy {A} (x : A) : A := x.

(** An [ObjectMeta] literal that names only [Name] and [Namespace]. *)
Definition namedMeta (name ns : string) (annotations : gmap string string)
    : ObjectMeta :=
  {| Name := name; Namespace := ns; Labels := ∅; Annotations := annotations;
     metaResourceVersion := ""; metaUID := "" |}.

(** ** The newer variant (package [metal]) *)

Module Metal.

Record controlPlaneEndpointManager := {
inProcess : bool;
apiServerPort : Z;
nodeAPIServerPort : Z;
eipTag : string;
projectID : string
}.

Definition set_inProcess (b : bool) (m : controlPlaneEndpointManager) :=
{| inProcess := b; apiServerPort := apiServerPort m;
   nodeAPIServerPort := nodeAPIServerPort m; eipTag := eipTag m;
   projectID := projectID m |}.
Definition set_apiServerPort (p : Z) (m : controlPlaneEndpointManager) :=
{| inProcess := inProcess m; apiServerPort := p;
   nodeAPIServerPort := nodeAPIServerPort m; eipTag := eipTag m;
   projectID := projectID m |}.
Definition set_nodeAPIServerPort (p : Z) (m : controlPlaneEndpointManager) :=
{| inProcess := inProcess m; apiServerPort := apiServerPort m;
   nodeAPIServerPort := p; eipTag := eipTag m;
   projectID := projectID m |}.

Definition newControlPlaneEndpointManager (eipTag projectID : string)
  (apiServerPort : Z) : controlPlaneEndpointManager :=
{| inProcess := false; apiServerPort := apiServerPort;
   nodeAPIServerPort := 0; eipTag := eipTag; projectID := projectID |}.

Abbreviation Run := (M controlPlaneEndpointManager).

Definition errPortUnknown : error :=
Err "control plane apiserver port not provided or determined, cannot check, will try again on next loop".
Definition errEmptyTagNodes : error :=
Err "control plane loadbalancer elastic ip tag is empty. Nothing to do".
Definition errEmptyTag : error :=
Err "elastic ip tag is empty. Nothing to do".
Definition errMultiAssigned (id : string) : error :=
Err ("the elastic ip " +:+ id +:+ " has more than one node assigned to it and this is currently not supported. Fix it manually unassigning devices").
Definition errNodePortUnknown : error :=
Err "control plane node apiserver port not yet determined, cannot reassign, will try again on next loop".
Definition errNoCandidate : error :=
Err "ccm didn't find a good candidate for IP allocation. Cluster is unhealthy".

Section WithEnv.
Variable E : env.

(** What [reassign] does once a probe of [node] has answered 200. *)
Definition assignTo (node : Node) (ip : IPAddressReservation)
  : Run (option error) :=
r ← InstanceID E (nodeName node);
match r with
| inl err => mret (Some err)
| inr deviceID =>
    u ← match resAssignments ip with
         | [a] => Unassign E (asgID a)
         | _ => mret None
         end;
    match u with
    | Some err => mret (Some err)
    | None =>
        a ← Assign E deviceID (resAddress ip);
        match a with
        | Some err => mret (Some err)
        | None => mret None
        end
    end
end.

(** The inner loop of [reassign] over the addresses of one node.  [None]:
  the loop ran to its end; [Some r]: the function returned [r]. *)
Fixpoint reassignAddresses (node : Node) (ip : IPAddressReservation)
  (eipURL : string) (addresses : list NodeAddress)
  : Run (option (option error)) :=
match addresses with
| [] => mret None
| a :: rest =>
    if decide (addrType a = "Hostname")
    then reassignAddresses node ip eipURL rest
    else
      m ← get_mgr;
      let healthCheckAddress :=
        healthzURL (addrAddress a) (nodeAPIServerPort m) in
      if decide (healthCheckAddress = eipURL)
      then reassignAddresses node ip eipURL rest
      else
        match http_NewRequest E healthCheckAddress with
        | Some _ => reassignAddresses node ip eipURL rest
        | None =>
            r ← Do E healthCheckAddress;
            match r with
            | inl _ => reassignAddresses node ip eipURL rest
            | inr resp =>
                if decide (StatusCode resp = StatusOK)
                then res ← assignTo node ip; mret (Some res)
                else reassignAddresses node ip eipURL rest
            end
        end
end.

(** The outer loop of [reassign] over the nodes. *)
Fixpoint reassignNodes (ip : IPAddressReservation) (eipURL : string)
  (nodes : list Node) : Run (option error) :=
match nodes with
| [] => mret (Some errNoCandidate)
| node :: rest =>
    r ← NodeAddresses E (nodeName node);
    match r with
    | inl err => mret (Some err)
    | inr addresses =>
        o ← reassignAddresses node ip eipURL addresses;
        match o with
        | Some res => mret res
        | None => reassignNodes ip eipURL rest
        end
    end
end.

Definition reassign (nodes : list Node) (ip : IPAddressReservation)
  (eipURL : string) : Run (option error) :=
m ← get_mgr;
if decide (nodeAPIServerPort m = 0)
then mret (Some errNodePortUnknown)
else reassignNodes ip eipURL nodes.

(** The part of [reconcileNodes] that follows the probe of the elastic IP;
  the deferred close of the body runs when it is left. *)
Definition afterProbe (nodes : list Node)
  (controlPlaneEndpoint : IPAddressReservation) (healthCheckURL : string)
  (r : error + Response) : Run (option error) :=
res ← match r with
       | inr resp =>
           if decide (StatusCode resp = StatusOK) then mret None
           else reassign (cpNodesOf nodes) controlPlaneEndpoint healthCheckURL
       | inl _ =>
           reassign (cpNodesOf nodes) controlPlaneEndpoint healthCheckURL
       end;
match r with
| inr resp => if hasBody resp then BodyClose healthCheckURL else mret tt
| inl _ => mret tt
end;;
mret res.

(** [reconcileNodes] between the registration of the deferred reset of the
  guard and the return. *)
Definition reconcileNodesGuarded (nodes : list Node) : Run (option error) :=
m ← get_mgr;
if decide (eipTag m = "") then mret (Some errEmptyTagNodes)
else
  l ← List_ E (projectID m);
  let '(ipList, err) := l in
  match err with
  | Some e => mret (Some e)
  | None =>
      match ipReservationByAllTags [eipTag m] ipList with
      | None => mret err
      | Some controlPlaneEndpoint =>
          if decide (1 < length (resAssignments controlPlaneEndpoint))%nat
          then mret (Some (errMultiAssigned (resID controlPlaneEndpoint)))
          else
            let healthCheckURL :=
              healthzURL (resAddress controlPlaneEndpoint) (apiServerPort m) in
            match http_NewRequest E healthCheckURL with
            | Some e => mret (Some e)
            | None =>
                r ← Do E healthCheckURL;
                afterProbe nodes controlPlaneEndpoint healthCheckURL r
            end
      end
  end.

Definition reconcileNodes (nodes : list Node) (mode : UpdateMode)
  : Run (option error) :=
m ← get_mgr;
if inProcess m then mret None
else if decide (apiServerPort m = 0) then mret (Some errPortUnknown)
else
  put_mgr (set_inProcess true m);;
  res ← reconcileNodesGuarded nodes;
  m' ← get_mgr;
  put_mgr (set_inProcess false m');;
  mret res.

Definition errNoPorts : error :=
Err "default/kubernetes service does not have any ports defined".
Definition errServiceNotFound : error :=
Err "Service default/kubernetes not found".
Definition wrapErr (what : string) (err : error) : error :=
Err (what +:+ ": " +:+ errMsg err).

(** The mirrored service built by [reconcileServices]. *)
Definition externalServiceOf (eip : string) (ports : list ServicePort)
  : Service :=
{| svcMeta := namedMeta externalServiceName externalServiceNamespace
                {[ metallbAnnotation := metallbDisabledtag ]};
   Spec := {| Ports := ports; Selector := ∅; ClusterIP := "";
              specType := ServiceTypeLoadBalancer; ExternalIPs := [];
              LoadBalancerIP := eip; SessionAffinity := "" |};
   Status := {| Ingress := [] |} |}.

(** The end of the loop body of [reconcileServices]: the second fetch of the
  mirrored service and the publication of its status. *)
Definition publishStatus (eip : string) : Run (option error) :=
g ← ServicesGet E externalServiceNamespace externalServiceName;
match g with
| inl err =>
    mret (Some (wrapErr ("could not get service " +:+ externalServiceName
                         +:+ " for status update") err))
| inr updatedService =>
    let updatedService :=
      set_Status {| Ingress := [ {| ingIP := eip; ingHostname := "" |} ] |}
                 updatedService in
    u ← ServicesUpdateStatus E externalServiceNamespace updatedService;
    match u with
    | Some err => mret (Some (wrapErr "failed to update service status" err))
    | None => mret None
    end
end.

(** The part of the loop body that creates or updates the mirrored service. *)
Definition mirrorService (eip : string) (existingPorts : list ServicePort)
  : Run (option error) :=
m ← get_mgr;
let ports :=
  foldl (λ ports p, ports ++ [DeepCopy p]) [] existingPorts in
(* ports[0].Port = m.apiServerPort; ports is as long as existingPorts,
   which has an element here *)
let ports := alter (set_Port (apiServerPort m)) 0%nat ports in
let externalService := externalServiceOf eip ports in
g ← ServicesGet E externalServiceNamespace externalServiceName;
c ← match g with
    | inr updatedService =>
        let updatedService :=
          set_Spec (set_LoadBalancerIP
                      (LoadBalancerIP (Spec externalService))
                      (Spec updatedService)) updatedService in
        let updatedService :=
          set_Spec (set_Ports (Ports (Spec externalService))
                      (Spec updatedService)) updatedService in
        u ← ServicesUpdate E externalServiceNamespace updatedService;
        mret (wrapErr "failed to update service" <$> u)
    | inl _ =>
        u ← ServicesCreate E externalServiceNamespace externalService;
        mret (wrapErr "failed to create service" <$> u)
    end;
match c with
| Some err => mret (Some err)
| None => publishStatus eip
end.

(** The part of the loop body that copies the upstream endpoints. *)
Definition mirrorEndpoints (svc : Service) : Run (option error) :=
r ← EndpointsGet E (Namespace (svcMeta svc)) (Name (svcMeta svc));
match r with
| inl err =>
    mret (Some (wrapErr ("failed to get endpoints " +:+ Name (svcMeta svc)) err))
| inr ep =>
    g ← EndpointsGet E externalServiceNamespace externalServiceName;
    let '(myep, epExisted) :=
      match g with
      | inr myep => (myep, true)
      | inl _ =>
          ({| epMeta := namedMeta externalServiceName
                          externalServiceNamespace ∅;
              Subsets := [] |}, false)
      end in
    let myep :=
      set_Subsets
        (foldl (λ subsets s, subsets ++ [DeepCopy s]) [] (Subsets ep))
        myep in
    if epExisted
    then u ← EndpointsUpdate E externalServiceNamespace myep;
         mret (wrapErr "failed to update my endpoints" <$> u)
    else u ← EndpointsCreate E externalServiceNamespace myep;
         mret (wrapErr "failed to create my endpoints" <$> u)
end.

(** The loop body of [reconcileServices] for the default/kubernetes
  service; every path of it returns. *)
Definition reconcileService (svc : Service) (eip : string)
  : Run (option error) :=
let existingPorts := Ports (Spec svc) in
match existingPorts with
| [] => mret (Some errNoPorts)
| p0 :: _ =>
    m ← get_mgr;
    let m := set_nodeAPIServerPort (IntVal (TargetPort p0)) m in
    let m := if decide (apiServerPort m = 0)
             then set_apiServerPort (nodeAPIServerPort m) m else m in
    put_mgr m;;
    e ← mirrorEndpoints svc;
    match e with
    | Some err => mret (Some err)
    | None => mirrorService eip existingPorts
    end
end.

Fixpoint reconcileServicesLoop (eip : string) (mode : UpdateMode)
  (svcs : list Service) : Run (option error) :=
match svcs with
| [] => if decide (mode = ModeSync) then mret (Some errServiceNotFound)
        else mret None
| svc :: rest =>
    if bool_decide (Namespace (svcMeta svc) ≠ "default")
       || bool_decide (Name (svcMeta svc) ≠ "kubernetes")
    then reconcileServicesLoop eip mode rest
    else reconcileService svc eip
end.

Definition reconcileServices (svcs : list Service) (mode : UpdateMode)
  : Run (option error) :=
m ← get_mgr;
if decide (eipTag m = "") then mret (Some errEmptyTag)
else
  l ← List_ E (projectID m);
  let '(ipList, err) := l in
  match err with
  | Some e => mret (Some e)
  | None =>
      match ipReservationByAllTags [eipTag m] ipList with
      | None => mret err
      | Some controlPlaneEndpoint =>
          if decide (1 < length (resAssignments controlPlaneEndpoint))%nat
          then mret (Some (errMultiAssigned (resID controlPlaneEndpoint)))
          else
            let eip := resAddress controlPlaneEndpoint in
            reconcileServicesLoop eip mode svcs
      end
  end.

End WithEnv.
End Metal.

(** ** The older variant (package [packet]) *)

(** How a call of the older [reconcileNodes] ends: it returns an error value
    (possibly nil) or it panics. *)
Inductive outcome := Returned (err : option error) | Panicked (why : string).

Module Packet.

Record controlPlaneEndpointManager := {
inProcess : bool;
apiServerPort : Z;
eipTag : string;
projectID : string
}.

Definition set_inProcess (b : bool) (m : controlPlaneEndpointManager) :=
{| inProcess := b; apiServerPort := apiServerPort m; eipTag := eipTag m;
   projectID := projectID m |}.

Definition newControlPlaneEndpointManager (eipTag projectID : string)
  (apiServerPort : Z) : controlPlaneEndpointManager :=
{| inProcess := false; apiServerPort := apiServerPort; eipTag := eipTag;
   projectID := projectID |}.

Abbreviation Run := (M controlPlaneEndpointManager).

Definition errEmptyTag : error :=
Err "elastic ip tag is empty. Nothing to do".
Definition errMultiAssigned (id : string) : error :=
Err ("the elastic ip " +:+ id +:+ " has more than one node assigned to it and this is currently not supported. Fix it manually unassigning devices").
Definition errNoCandidate : error :=
Err "ccm didn't find a good candidate for IP allocation. Cluster is unhealthy".
Definition nilDereference : string :=
"invalid memory address or nil pointer dereference".

Section WithEnv.
Variable E : env.

Definition assignTo (node : Node) (ip : IPAddressReservation)
  : Run (option error) :=
r ← InstanceID E (nodeName node);
match r with
| inl err => mret (Some err)
| inr deviceID =>
    u ← match resAssignments ip with
        | [a] => Unassign E (asgID a)
        | _ => mret None
        end;
    match u with
    | Some err => mret (Some err)
    | None =>
        a ← Assign E deviceID (resAddress ip);
        match a with
        | Some err => mret (Some err)
        | None => mret None
        end
    end
end.

Fixpoint reassignAddresses (node : Node) (ip : IPAddressReservation)
  (addresses : list NodeAddress) : Run (option (option error)) :=
match addresses with
| [] => mret None
| a :: rest =>
    if decide (addrType a = "Hostname")
    then reassignAddresses node ip rest
    else
      m ← get_mgr;
      let healthCheckAddress :=
        healthzURL (addrAddress a) (apiServerPort m) in
      match http_NewRequest E healthCheckAddress with
      | Some _ => reassignAddresses node ip rest
      | None =>
          r ← Do E healthCheckAddress;
          match r with
          | inl _ => reassignAddresses node ip rest
          | inr resp =>
              if decide (StatusCode resp = StatusOK)
              then res ← assignTo node ip; mret (Some res)
              else reassignAddresses node ip rest
          end
      end
end.

Fixpoint reassign (nodes : list Node) (ip : IPAddressReservation)
  : Run (option error) :=
match nodes with
| [] => mret (Some errNoCandidate)
| node :: rest =>
    r ← NodeAddresses E (nodeName node);
    match r with
    | inl err => mret (Some err)
    | inr addresses =>
        o ← reassignAddresses node ip addresses;
        match o with
        | Some res => mret res
        | None => reassign rest ip
        end
    end
end.

(** [reconcileNodes] from the probe of the elastic IP on.  The response is
  nil when the client reports an error; the last statement,
  [defer resp.Body.Close()], reads [resp.Body]. *)
Definition afterProbe (nodes : list Node)
  (controlPlaneEndpoint : IPAddressReservation) (healthCheckURL : string)
  (r : error + Response) : Run outcome :=
c ← match r with
    | inr resp =>
        if decide (StatusCode resp = StatusOK) then mret None
        else reassign (cpNodesOf nodes) controlPlaneEndpoint
    | inl _ => reassign (cpNodesOf nodes) controlPlaneEndpoint
    end;
match c with
| Some err => mret (Returned (Some err))
| None =>
    match r with
    | inl _ => mret (Panicked nilDereference)
    | inr resp =>
        if hasBody resp
        then BodyClose healthCheckURL;; mret (Returned None)
        else mret (Panicked nilDereference)
    end
end.

Definition reconcileNodesGuarded (nodes : list Node) : Run outcome :=
m ← get_mgr;
if decide (eipTag m = "") then mret (Returned (Some errEmptyTag))
else
  l ← List_ E (projectID m);
  let '(ipList, err) := l in
  match err with
  | Some e => mret (Returned (Some e))
  | None =>
      match ipReservationByTags [eipTag m] ipList with
      | None => mret (Returned err)
      | Some controlPlaneEndpoint =>
          if decide (1 < length (resAssignments controlPlaneEndpoint))%nat
          then mret (Returned
                       (Some (errMultiAssigned (resID controlPlaneEndpoint))))
          else
            let healthCheckURL :=
              healthzURL (resAddress controlPlaneEndpoint) (apiServerPort m) in
            match http_NewRequest E healthCheckURL with
            | Some e => mret (Returned (Some e))
            | None =>
                r ← Do E healthCheckURL;
                afterProbe nodes controlPlaneEndpoint healthCheckURL r
            end
      end
  end.

(** The deferred reset of the guard runs on a return and on a panic alike. *)
Definition reconcileNodes (nodes : list Node) (remove : bool) : Run outcome :=
m ← get_mgr;
if inProcess m then mret (Returned None)
else
  put_mgr (set_inProcess true m);;
  res ← reconcileNodesGuarded nodes;
  m' ← get_mgr;
  put_mgr (set_inProcess false m');;
  mret res.

Definition errServiceNotFound : error :=
  Err "Service default/kubernetes not found".

(** The loop of the older [reconcileServices]; every path through the body
    for the default/kubernetes service returns.  The typed client hands back
    an object whenever it reports no error, so [existing == nil] is the
    [inl] answer of the fetch. *)
Fixpoint reconcileServicesLoop (eip : string) (svcs : list Service)
    : Run (option error) :=
  match svcs with
  | [] => mret (Some errServiceNotFound)
  | svc :: rest =>
      if bool_decide (Namespace (svcMeta svc) ≠ "default")
         || bool_decide (Name (svcMeta svc) ≠ "kubernetes")
      then reconcileServicesLoop eip rest
      else if existsb (λ ip, bool_decide (ip = eip)) (ExternalIPs (Spec svc))
      then mret None
      else
        g ← ServicesGet E (Namespace (svcMeta svc)) (Name (svcMeta svc));
        match g with
        | inl err =>
            mret (Some (Err ("failed to get latest for service "
                             +:+ Name (svcMeta svc) +:+ ": " +:+ errMsg err)))
        | inr existing =>
            let existing :=
              set_Spec (set_ExternalIPs (ExternalIPs (Spec svc) ++ [eip])
                          (Spec existing)) existing in
            ServicesUpdate E (Namespace (svcMeta svc)) existing
        end
  end.

Definition reconcileServices (svcs : list Service) (remove : bool)
    : Run (option error) :=
  m ← get_mgr;
  if decide (eipTag m = "") then mret (Some errEmptyTag)
  else
    l ← List_ E (projectID m);
    let '(ipList, err) := l in
    match err with
    | Some e => mret (Some e)
    | None =>
        match ipReservationByTags [eipTag m] ipList with
        | None => mret err
        | Some controlPlaneEndpoint =>
            if decide (1 < length (resAssignments controlPlaneEndpoint))%nat
            then mret (Some (errMultiAssigned (resID controlPlaneEndpoint)))
            else
              let eip := resAddress controlPlaneEndpoint in
              reconcileServicesLoop eip svcs
        end
    end.

End WithEnv.
End Packet.


(** ** Reasoning about runs *)

(** [calls m c Q]: started with manager [m] at any trace, [c] leaves the
    manager as it is, appends the events [new] to the trace and returns [a],
    with [Q a new]. *)
Definition calls {Mgr A} (m : Mgr) (c : M Mgr A)
    (Q : A → list event → Prop) : Prop :=
  ∀ h, ∃ a new, c (St m h) = (a, St m (h ++ new)) ∧ Q a new.

(** ** Classes of events *)

(** A probe that was answered with status 200. *)
Definition healthyProbe (ev : event) : bool :=
  match ev with
  | EvDo _ (inr resp) => bool_decide (StatusCode resp = StatusOK)
  | _ => false
  end.

(** A call that changes the assignment of the reservation. *)
Definition reassignmentCall (ev : event) : bool :=
  match ev with
  | EvUnassign _ _ | EvAssign _ _ _ => true
  | _ => false
  end.

(** A node-address lookup that failed. *)
Definition failedLookup (ev : event) : bool :=
  match ev with
  | EvNodeAddresses _ (inl _) => true
  | _ => false
  end.

(** The release of a response body. *)
Definition bodyClose (ev : event) : bool :=
  match ev with
  | EvBodyClose _ => true
  | _ => false
  end.

(** [reassign] never releases a body, and it changes the assignment only
    after a probe that was answered with 200. *)
Definition quietScan (new : list event) : Prop :=
  Forall (λ ev, bodyClose ev = false) new ∧
  (Forall (λ ev, healthyProbe ev = false) new →
   Forall (λ ev, reassignmentCall ev = false) new).

(** ** The order of the scan, in the words of the specification *)

Section Candidates.
Variable E : env.
Variable port : Z.
Variable eipURL : string.
Variable addressesOf : string → list NodeAddress.
Variable probe : string → error + Response.

(** The URL at which an address is probed; none for a Hostname address,
    for the elastic IP's own URL, and for a URL no request can be built of. *)
Definition candidateURL (a : NodeAddress) : option string :=
  if decide (addrType a = "Hostname") then None
  else
    let u := healthzURL (addrAddress a) port in
    if decide (u = eipURL) then None
    else if decide (http_NewRequest E u = None) then Some u else None.

(** The URLs probed for a list of addresses, in input order. *)
Definition candidateURLs (addresses : list NodeAddress) : list string :=
  omap candidateURL addresses.

Definition healthy (u : string) : bool := healthyProbe (EvDo u (probe u)).

Definition probeEvent (u : string) : event := EvDo u (probe u).

(** The events of a node whose addresses are all probed in vain. *)
Definition scanEvents (node : Node) : list event :=
  EvNodeAddresses (nodeName node) (inr (addressesOf (nodeName node)))
  :: (probeEvent <$> candidateURLs (addressesOf (nodeName node))).

(** The unassign call made for a reservation: one when it has exactly one
    assignment, none otherwise. *)
Definition unassignEvents (ip : IPAddressReservation) : list event :=
  match resAssignments ip with
  | [a] => [EvUnassign (asgID a) None]
  | _ => []
  end.

(** The deferred release of the body of the elastic IP's probe. *)
Definition closeEvents (r : error + Response) : list event :=
  match r with
  | inr resp => if hasBody resp then [EvBodyClose eipURL] else []
  | inl _ => []
  end.
End Candidates.

(** The calls made once a probe of [node] has answered 200. *)
Definition assignEvents (node : Node) (ip : IPAddressReservation)
    (deviceID : string) (res : option error) : list event :=
  EvInstanceID (nodeName node) (inr deviceID)
  :: unassignEvents ip ++ [EvAssign deviceID (resAddress ip) res].

(** ** The service mirror *)

(** The upstream service the mirror is made of. *)
Definition isDefaultKubernetes (svc : Service) : bool :=
  bool_decide (Namespace (svcMeta svc) = "default")
  && bool_decide (Name (svcMeta svc) = "kubernetes").

Definition serviceUpdate (ev : event) : bool :=
  match ev with
  | EvServicesUpdate _ _ _ => true
  | _ => false
  end.

(** [u] is [old] but for the external address and the port list. *)
Definition ownedFieldsOnly (old u : Service) : Prop :=
  svcMeta u = svcMeta old ∧ Status u = Status old ∧
  Selector (Spec u) = Selector (Spec old) ∧
  ClusterIP (Spec u) = ClusterIP (Spec old) ∧
  specType (Spec u) = specType (Spec old) ∧
  ExternalIPs (Spec u) = ExternalIPs (Spec old) ∧
  SessionAffinity (Spec u) = SessionAffinity (Spec old).

(** The shape of a trace with at most one service update, which follows the
    fetch of the object it writes back. *)
Definition updateShape (new : list event) : Prop :=
  Forall (λ ev, serviceUpdate ev = false) new ∨
  ∃ pre old u r post,
    new = pre ++ EvServicesGet externalServiceNamespace externalServiceName (inr old)
              :: EvServicesUpdate externalServiceNamespace u r :: post ∧
    ownedFieldsOnly old u ∧
    Forall (λ ev, serviceUpdate ev = false) pre ∧
    Forall (λ ev, serviceUpdate ev = false) post.

(** The manager after the loop body has seen the upstream service [svc]. *)
Definition adoptPorts (svc : Service) (m : Metal.controlPlaneEndpointManager)
    : Metal.controlPlaneEndpointManager :=
  match Ports (Spec svc) with
  | [] => m
  | p0 :: _ =>
      let m := Metal.set_nodeAPIServerPort (IntVal (TargetPort p0)) m in
      if decide (Metal.apiServerPort m = 0)
      then Metal.set_apiServerPort (Metal.nodeAPIServerPort m) m else m
  end.

(** Sequential invocations of [reconcileNodes] from a manager whose guard
    is clear: the guard is clear before each of them, so none is skipped. *)
Fixpoint reconcileNodesRepeatedly (E : env)
    (invocations : list (list Node * UpdateMode))
    (s : state Metal.controlPlaneEndpointManager)
    : list bool * state Metal.controlPlaneEndpointManager :=
  match invocations with
  | [] => ([], s)
  | (nodes, mode) :: rest =>
      let guard := Metal.inProcess (mgr s) in
      let (guards, s') :=
        reconcileNodesRepeatedly E rest (Metal.reconcileNodes E nodes mode s).2 in
      (guard :: guards, s')
  end.

(** C5 as the specification words it: when no probe made by [reassign] is
    answered with 200, no unassign or assign call is made and the exhaustion
    error is returned. *)
Definition exhaustionClaim (E : env) (nodes : list Node)
    (ip : IPAddressReservation) (eipURL : string)
    (m : Metal.controlPlaneEndpointManager) : Prop :=
  let run := Metal.reassign E nodes ip eipURL (St m []) in
  Forall (λ ev, healthyProbe ev = false) (trace run.2) →
  Forall (λ ev, reassignmentCall ev = false) (trace run.2) ∧
  run.1 = Some Metal.errNoCandidate.

(** ** Kinds of calls and shapes of traces *)

(** Calls to the cloud API, to the instance lookups and to the HTTP client. *)
Definition cloudSide (ev : event) : bool :=
  match ev with
  | EvList _ _ | EvDo _ _ | EvBodyClose _ | EvNodeAddresses _ _
  | EvInstanceID _ _ | EvUnassign _ _ | EvAssign _ _ _ => true
  | _ => false
  end.

(** The listing and the calls to the orchestrator's object client. *)
Definition orchestratorSide (ev : event) : bool :=
  match ev with
  | EvList _ _ | EvEndpointsGet _ _ _ | EvEndpointsUpdate _ _ _
  | EvEndpointsCreate _ _ _ | EvServicesGet _ _ _ | EvServicesUpdate _ _ _
  | EvServicesCreate _ _ _ | EvServicesUpdateStatus _ _ _ => true
  | _ => false
  end.

(** The node an instance lookup asks about. *)
Definition lookedUp (ev : event) : option string :=
  match ev with
  | EvNodeAddresses name _ | EvInstanceID name _ => Some name
  | _ => None
  end.

(** An event of the scan that decides nothing: a node-address lookup, or a
    probe that was not answered with 200. *)
Definition scanOnly (ev : event) : bool :=
  match ev with
  | EvNodeAddresses _ _ => true
  | EvDo _ _ => negb (healthyProbe ev)
  | _ => false
  end.

(** The three ways in which the calls after a healthy probe of the node
    [name] end: the instance lookup fails; the unassign call fails; the
    assign call is made, and its answer is what [reassign] returns. *)
Definition assignDecision (ip : IPAddressReservation) (name : string)
    (res : option error) (tail : list event) : Prop :=
  (∃ e, tail = [EvInstanceID name (inl e)] ∧ res = Some e) ∨
  (∃ dev a e, resAssignments ip = [a] ∧
     tail = [EvInstanceID name (inr dev); EvUnassign (asgID a) (Some e)] ∧
     res = Some e) ∨
  (∃ dev, tail = EvInstanceID name (inr dev)
                 :: unassignEvents ip ++ [EvAssign dev (resAddress ip) res]).

(** The calls of [reassign]: a scan that decides nothing, then either
    nothing more (and an error is returned), or a probe of a node of the list
    answered with 200 and the calls that follow it. *)
Definition reassignShape (nodes : list Node) (ip : IPAddressReservation)
    (res : option error) (new : list event) : Prop :=
  ∃ scan tail,
    new = scan ++ tail ∧
    Forall (λ ev, scanOnly ev = true) scan ∧
    ((tail = [] ∧ is_Some res) ∨
     ∃ node u resp tail',
       node ∈ nodes ∧ StatusCode resp = StatusOK ∧
       tail = EvDo u (inr resp) :: tail' ∧
       assignDecision ip (nodeName node) res tail').

(** The write that closes the mirroring of the endpoints [ep], after the
    fetch of the mirrored endpoints has answered [g]. *)
Definition endpointsWrite (ep : Endpoints) (g : error + Endpoints)
    (r : option error) : event :=
  match g with
  | inr myep =>
      EvEndpointsUpdate externalServiceNamespace
        (set_Subsets (Subsets ep) myep) r
  | inl _ =>
      EvEndpointsCreate externalServiceNamespace
        {| epMeta := namedMeta externalServiceName externalServiceNamespace ∅;
           Subsets := Subsets ep |} r
  end.

(** The calls of the endpoints part of [reconcileServices] for the upstream
    service [svc], and the error it ends with. *)
Definition endpointsShape (svc : Service) (res : option error)
    (new : list event) : Prop :=
  (∃ e, new = [EvEndpointsGet (Namespace (svcMeta svc)) (Name (svcMeta svc)) (inl e)] ∧
        res = Some (Metal.wrapErr ("failed to get endpoints " +:+ Name (svcMeta svc)) e)) ∨
  (∃ ep g r,
     new = [EvEndpointsGet (Namespace (svcMeta svc)) (Name (svcMeta svc)) (inr ep);
            EvEndpointsGet externalServiceNamespace externalServiceName g;
            endpointsWrite ep g r] ∧
     res = Metal.wrapErr (match g with
                          | inr _ => "failed to update my endpoints"
                          | inl _ => "failed to create my endpoints"
                          end) <$> r).

(** The write of the mirrored service, after its fetch has answered [g]. *)
Definition serviceWrite (eip : string) (ports : list ServicePort)
    (g : error + Service) (r : option error) : event :=
  match g with
  | inr old =>
      EvServicesUpdate externalServiceNamespace
        (set_Spec (set_Ports ports (set_LoadBalancerIP eip (Spec old))) old) r
  | inl _ =>
      EvServicesCreate externalServiceNamespace
        (Metal.externalServiceOf eip ports) r
  end.

(** The calls that publish the status, and the error they end with. *)
Definition statusShape (eip : string) (res : option error)
    (new : list event) : Prop :=
  (∃ e, new = [EvServicesGet externalServiceNamespace externalServiceName (inl e)] ∧
        res = Some (Metal.wrapErr ("could not get service " +:+ externalServiceName
                                   +:+ " for status update") e)) ∨
  (∃ old r,
     new = [EvServicesGet externalServiceNamespace externalServiceName (inr old);
            EvServicesUpdateStatus externalServiceNamespace
              (set_Status {| Ingress := [ {| ingIP := eip; ingHostname := "" |} ] |} old)
              r] ∧
     res = Metal.wrapErr "failed to update service status" <$> r).

(** The calls of the service part of [reconcileServices]: the fetch, the
    write, and, when the write succeeded, the publication of the status. *)
Definition serviceShape (eip : string) (ports : list ServicePort)
    (res : option error) (new : list event) : Prop :=
  ∃ g r rest,
    new = EvServicesGet externalServiceNamespace externalServiceName g
          :: serviceWrite eip ports g r :: rest ∧
    match r with
    | Some e =>
        rest = [] ∧
        res = Some (Metal.wrapErr (match g with
                                   | inr _ => "failed to update service"
                                   | inl _ => "failed to create service"
                                   end) e)
    | None => statusShape eip res rest
    end.

(** The only service [reconcileServices] looks at. *)
Definition upstreamOnly (svcs : list Service) : list Service :=
  match List.find isDefaultKubernetes svcs with
  | Some svc => [svc]
  | None => []
  end.

(** ** Concrete scenarios *)

Module Scenario.

Definition okResponse : Response := {| StatusCode := 200; hasBody := true |}.
Definition badResponse : Response := {| StatusCode := 503; hasBody := true |}.

(** An environment whose answers do not change over time: a listing, a
    probe table, an address table and a stored mirrored service; every
    other call succeeds, and the mirrored endpoints do not exist yet. *)
Definition staticEnv (listing : list IPAddressReservation * option error)
    (probe : string → error + Response)
    (addresses : string → error + list NodeAddress)
    (stored : error + Service) : env :=
  {| http_NewRequest := λ _, None;
     ipResSvr_List := λ _ _, listing;
     httpClient_Do := λ _ url, probe url;
     instances_NodeAddresses := λ _ name, addresses name;
     instances_InstanceID := λ _ name, inr ("device-" +:+ name);
     deviceIPSrv_Unassign := λ _ _, None;
     deviceIPSrv_Assign := λ _ _ _, None;
     endpoints_Get := λ _ ns name,
       if decide (ns = externalServiceNamespace)
       then inl (Err "endpoints not found")
       else inr {| epMeta := namedMeta name ns ∅;
                   Subsets := [ {| esAddresses := [ {| eaIP := "10.0.0.2"; eaHostname := "" |} ];
                                   esNotReadyAddresses := [];
                                   esPorts := [ {| epName := "https"; epPort := 6443; epProtocol := "TCP" |} ] |} ] |};
     endpoints_Update := λ _ _ _, None;
     endpoints_Create := λ _ _ _, None;
     services_Get := λ _ _ _, stored;
     services_Update := λ _ _ _, None;
     services_Create := λ _ _ _, None;
     services_UpdateStatus := λ _ _ _, None |}.

Definition eip : IPAddressReservation :=
  {| resID := "res-1"; resAddress := "147.75.0.1"; resTags := ["cluster-a"; "cp"];
     resAssignments := [ {| asgID := "asg-old"; asgHref := "/ips/asg-old" |} ] |}.
Definition otherIP : IPAddressReservation :=
  {| resID := "res-0"; resAddress := "147.75.0.9"; resTags := ["cluster-b"];
     resAssignments := [] |}.
Definition doubleIP : IPAddressReservation :=
  {| resID := "res-2"; resAddress := "147.75.0.2"; resTags := ["cp"];
     resAssignments := [ {| asgID := "asg-a"; asgHref := "" |};
                         {| asgID := "asg-b"; asgHref := "" |} ] |}.

Definition worker : Node :=
  {| nodeName := "worker-0"; nodeLabels := {[ "kubernetes.io/os" := "linux" ]} |}.
Definition cp0 : Node :=
  {| nodeName := "cp-0"; nodeLabels := {[ controlPlaneLabel := "" ]} |}.
Definition cp1 : Node :=
  {| nodeName := "cp-1"; nodeLabels := {[ controlPlaneLabel := "" ]} |}.
Definition nodes : list Node := [worker; cp0; cp1].

Definition addresses (name : string) : error + list NodeAddress :=
  if decide (name = "cp-0") then
    inr [ {| addrType := "Hostname"; addrAddress := "cp-0" |};
          {| addrType := "InternalIP"; addrAddress := "10.0.0.1" |};
          {| addrType := "ExternalIP"; addrAddress := "147.75.0.1" |} ]
  else if decide (name = "cp-1") then
    inr [ {| addrType := "Hostname"; addrAddress := "cp-1" |};
          {| addrType := "InternalIP"; addrAddress := "10.0.0.2" |};
          {| addrType := "ExternalIP"; addrAddress := "147.75.1.2" |} ]
  else inr [ {| addrType := "InternalIP"; addrAddress := "10.0.0.3" |} ].

(** Only the internal address of cp-1 is healthy. *)
Definition probe (url : string) : error + Response :=
  if decide (url = "https://10.0.0.2:6443/healthz") then inr okResponse
  else if decide (url = "https://10.0.0.1:6443/healthz") then inr badResponse
  else inl (Err "dial tcp: i/o timeout").

Definition upstream : Service :=
  {| svcMeta := namedMeta "kubernetes" "default" ∅;
     Spec := {| Ports := [ {| spName := "https"; spProtocol := "TCP"; Port := 443;
                              TargetPort := {| iosType := 0; IntVal := 6443; StrVal := "" |};
                              NodePort := 0 |} ];
                Selector := ∅; ClusterIP := "10.96.0.1"; specType := "ClusterIP";
                ExternalIPs := []; LoadBalancerIP := ""; SessionAffinity := "None" |};
     Status := {| Ingress := [] |} |}.

(** A mirrored service that somebody labelled out of band. *)
Definition storedMirror : Service :=
  {| svcMeta := {| Name := externalServiceName; Namespace := externalServiceNamespace;
                   Labels := {[ "team" := "infra" ]};
                   Annotations := {[ metallbAnnotation := metallbDisabledtag ]};
                   metaResourceVersion := "41"; metaUID := "uid-7" |};
     Spec := {| Ports := []; Selector := ∅; ClusterIP := "10.96.7.7";
                specType := ServiceTypeLoadBalancer; ExternalIPs := [];
                LoadBalancerIP := "147.75.0.77"; SessionAffinity := "None" |};
     Status := {| Ingress := [] |} |}.

Definition E : env :=
  staticEnv ([otherIP; eip], None) probe addresses (inr storedMirror).

Definition addressesOf (name : string) : list NodeAddress :=
  match addresses name with
  | inr l => l
  | inl _ => []
  end.

Definition eipURL : string := "https://147.75.0.1:6443/healthz".

(** The elastic IP answers 503; the nodes are as in [probe]. *)
Definition degradedProbe (url : string) : error + Response :=
  if decide (url = eipURL) then inr badResponse else probe url.
Definition Edegraded : env :=
  staticEnv ([otherIP; eip], None) degradedProbe addresses (inr storedMirror).

(** The elastic IP times out; every other URL answers 200. *)
Definition eagerProbe (url : string) : error + Response :=
  if decide (url = eipURL) then inl (Err "dial tcp: i/o timeout")
  else inr okResponse.
Definition Eeager : env :=
  staticEnv ([otherIP; eip], None) eagerProbe addresses (inr storedMirror).

(** No URL answers. *)
Definition Edown : env :=
  staticEnv ([otherIP; eip], None) (λ _, inl (Err "dial tcp: i/o timeout"))
    addresses (inr storedMirror).

(** No URL answers, and the address lookup of cp-0 fails. *)
Definition failingAddresses (name : string) : error + list NodeAddress :=
  if decide (name = "cp-0") then inl (Err "device not found")
  else addresses name.
Definition Elookup : env :=
  staticEnv ([otherIP; eip], None) (λ _, inl (Err "dial tcp: i/o timeout"))
    failingAddresses (inr storedMirror).

(** The tagged reservation has two assignments. *)
Definition Edouble : env :=
  staticEnv ([otherIP; doubleIP], None) probe addresses (inr storedMirror).

(** No reservation carries the tag. *)
Definition Euntagged : env :=
  staticEnv ([otherIP], None) probe addresses (inr storedMirror).

(** The manager as constructed, with the external port configured. *)
Definition freshMetal : Metal.controlPlaneEndpointManager :=
  Metal.newControlPlaneEndpointManager "cp" "proj" 6443.
(** The manager as constructed, with the external port left to the cluster. *)
Definition unsetMetal : Metal.controlPlaneEndpointManager :=
  Metal.newControlPlaneEndpointManager "cp" "proj" 0.
(** The manager once [reconcileServices] has seen the upstream service. *)
Definition readyMetal : Metal.controlPlaneEndpointManager :=
  Metal.set_nodeAPIServerPort 6443 freshMetal.
Definition busyMetal : Metal.controlPlaneEndpointManager :=
  Metal.set_inProcess true readyMetal.
Definition freshPacket : Packet.controlPlaneEndpointManager :=
  Packet.newControlPlaneEndpointManager "cp" "proj" 6443.
Definition busyPacket : Packet.controlPlaneEndpointManager :=
  Packet.set_inProcess true freshPacket.

(** The URL whose response body an event hands over, and the URL whose
    body an event releases. *)
Definition receivedBody (ev : event) : option string :=
  match ev with
  | EvDo url (inr resp) => if hasBody resp then Some url else None
  | _ => None
  end.
Definition releasedBody (ev : event) : option string :=
  match ev with
  | EvBodyClose url => Some url
  | _ => None
  end.

(** The mirrored service written back by the update of [storedMirror]. *)
Definition updatedMirror : Service :=
  set_Spec
    (set_Ports [ {| spName := "https"; spProtocol := "TCP"; Port := 6443;
                    TargetPort := {| iosType := 0; IntVal := 6443; StrVal := "" |};
                    NodePort := 0 |} ]
       (set_LoadBalancerIP "147.75.0.1" (Spec storedMirror)))
    storedMirror.

(** The elastic IP and every node answer 200. *)
Definition Ehealthy : env :=
  staticEnv ([otherIP; eip], None) (λ _, inr okResponse) addresses
    (inr storedMirror).

(** The listing fails. *)
Definition Elistfail : env :=
  staticEnv ([eip], Some (Err "401 unauthorized")) probe addresses
    (inr storedMirror).

(** The mirrored service does not exist yet. *)
Definition Enomirror : env :=
  staticEnv ([otherIP; eip], None) probe addresses
    (inl (Err "services not found")).

Definition emptyMetal : Metal.controlPlaneEndpointManager :=
  Metal.newControlPlaneEndpointManager "" "proj" 6443.

(** Upstream services: without ports, and carrying the elastic IP already. *)
Definition portless : Service :=
  set_Spec (set_Ports [] (Spec upstream)) upstream.
Definition announced : Service :=
  set_Spec (set_ExternalIPs ["10.1.1.1"; "147.75.0.1"] (Spec upstream)) upstream.
Definition otherService : Service :=
  {| svcMeta := namedMeta "dns" "kube-system" ∅; Spec := Spec upstream;
     Status := {| Ingress := [] |} |}.

End Scenario.

(** ** Rules for [calls] *)

Section CallsRules.
Context {Mgr : Type} (m : Mgr).

Lemma calls_ret {A} (a : A) (Q : A → list event → Prop) :
  Q a [] → calls m (mret a) Q.
Proof. intros HQ h. exists a, []. by rewrite app_nil_r. Qed.

Lemma calls_get (Q : Mgr → list event → Prop) :
  Q m [] → calls m get_mgr Q.
Proof. intros HQ h. exists m, []. by rewrite app_nil_r. Qed.

Lemma calls_bind {A B} (c : M Mgr A) (k : A → M Mgr B)
    (Q : B → list event → Prop) :
  calls m c (λ a n1, calls m (k a) (λ b n2, Q b (n1 ++ n2))) →
  calls m (c ≫= k) Q.
Proof.
  intros Hc h. destruct (Hc h) as (a & n1 & Ec & Hk).
  destruct (Hk (h ++ n1)) as (b & n2 & Ek & HQ).
  exists b, (n1 ++ n2). split; [|done].
  unfold mbind, M_bind. rewrite Ec, Ek. by rewrite app_assoc.
Qed.

Lemma calls_call {A} (ask : list event → A) (ev : A → event)
    (Q : A → list event → Prop) :
  (∀ h, Q (ask h) [ev (ask h)]) → calls m (call ask ev) Q.
Proof. intros HQ h. exists (ask h), [ev (ask h)]. by split. Qed.

Lemma calls_emit (ev : event) (Q : unit → list event → Prop) :
  Q tt [ev] → calls m (emit ev) Q.
Proof. intros HQ h. exists tt, [ev]. by split. Qed.

Lemma calls_mono {A} (c : M Mgr A) (Q Q' : A → list event → Prop) :
  calls m c Q → (∀ a new, Q a new → Q' a new) → calls m c Q'.
Proof.
  intros Hc HQ h. destruct (Hc h) as (a & new & Ec & Ha).
  exists a, new. auto.
Qed.

(** What [calls] says about one run. *)
Lemma calls_run {A} (c : M Mgr A) (Q : A → list event → Prop) h a s' :
  calls m c Q → c (St m h) = (a, s') →
  ∃ new, s' = St m (h ++ new) ∧ Q a new.
Proof.
  intros Hc Ec. destruct (Hc h) as (a' & new & Ec' & HQ).
  rewrite Ec in Ec'. injection Ec' as -> ->. eauto.
Qed.
End CallsRules.

(** One backward step through a computation. *)
Ltac calls_step :=
  lazymatch goal with
  | |- calls _ (mbind _ _) _ => apply calls_bind
  | |- calls _ (mret _) _ => apply calls_ret
  | |- calls _ get_mgr _ => apply calls_get
  | |- calls _ (call _ _) _ => apply calls_call; intros ?
  | |- calls _ (emit _) _ => apply calls_emit
  end.

(** Unfolding of the monad, for the straight-line parts. *)
Ltac unfold_run :=
  unfold mbind, M_bind, mret, M_ret, get_mgr, put_mgr, List_, call; simpl.

(** ** The resolver *)

Lemma ipReservationByAllTags_none (tag : string) (ips : list IPAddressReservation) :
  (∀ r, r ∈ ips → tag ∉ resTags r) →
  ipReservationByAllTags [tag] ips = None.
Proof.
  intros Hno. unfold ipReservationByAllTags.
  induction ips as [|r ips IH]; [done|]. simpl.
  rewrite bool_decide_eq_false_2 by (apply Hno; left). simpl.
  apply IH. intros r' Hr'. apply Hno. by right.
Qed.

Lemma ipReservationByAllTags_some (tags : list string)
    (ips : list IPAddressReservation) (r : IPAddressReservation) :
  ipReservationByAllTags tags ips = Some r →
  r ∈ ips ∧ ∀ t, t ∈ tags → t ∈ resTags r.
Proof.
  unfold ipReservationByAllTags. intros H.
  apply find_some in H as [Hin Hall]. split.
  - by apply list_elem_of_In.
  - intros t Ht. rewrite forallb_forall in Hall.
    apply list_elem_of_In, Hall in Ht. by apply bool_decide_eq_true_1 in Ht.
Qed.

(** The label loop of [reconcileNodes] is a filter. *)
Lemma cpNodesOf_filter (nodes : list Node) :
  cpNodesOf nodes = filter (λ n, is_Some (nodeLabels n !! controlPlaneLabel)) nodes.
Proof.
  unfold cpNodesOf.
  assert (Hgen : ∀ acc,
    foldl (λ cpNodes n,
             match nodeLabels n !! controlPlaneLabel with
             | Some _ => cpNodes ++ [n]
             | None => cpNodes
             end) acc nodes
    = acc ++ filter (λ n, is_Some (nodeLabels n !! controlPlaneLabel)) nodes).
  { induction nodes as [|n nodes IH]; intros acc; simpl.
    - by rewrite app_nil_r.
    - rewrite IH. destruct (nodeLabels n !! controlPlaneLabel) eqn:El.
      + rewrite filter_cons_True by (rewrite El; eauto).
        by rewrite <- app_assoc.
      + rewrite filter_cons_False; [done|]. rewrite El. by intros [? ?]. }
  apply Hgen.
Qed.

Ltac calls_go :=
  repeat first
    [ calls_step
    | progress simpl
    | lazymatch goal with
      | |- calls _ (match ?x with _ => _ end) _ => destruct x eqn:?
      | |- calls _ (if ?x then _ else _) _ => destruct x eqn:?
      end ].

Module MetalFacts.
Import Metal.

Section WithEnv.
Variable E : env.
Variable m : controlPlaneEndpointManager.

Lemma metal_assignTo_calls node ip :
  calls m (assignTo E node ip)
    (λ _ new, Forall (λ ev, bodyClose ev = false) new ∧
              Forall (λ ev, healthyProbe ev = false) new).
Proof.
  unfold assignTo, InstanceID, Unassign, Assign.
  calls_go; split; repeat constructor.
Qed.

Lemma metal_reassignAddresses_calls node ip eipURL addresses :
  calls m (reassignAddresses E node ip eipURL addresses)
    (λ o new, quietScan new ∧
              (Forall (λ ev, healthyProbe ev = false) new →
               o = None ∧ Forall (λ ev, failedLookup ev = false) new)).
Proof.
  assert (Hskip : ∀ (o : option (option error)) ev new,
            bodyClose ev = false → reassignmentCall ev = false →
            failedLookup ev = false →
            quietScan new ∧
            (Forall (λ ev, healthyProbe ev = false) new →
             o = None ∧ Forall (λ ev, failedLookup ev = false) new) →
            quietScan (ev :: new) ∧
            (Forall (λ ev, healthyProbe ev = false) (ev :: new) →
             o = None ∧ Forall (λ ev, failedLookup ev = false) (ev :: new))).
  { intros o ev new Hc Hr Hl [[Hcs Hq] Ho]. split; [split|].
    - by constructor.
    - intros Hh. apply Forall_cons in Hh as [_ Hh].
      constructor; [done|]. by apply Hq.
    - intros Hh. apply Forall_cons in Hh as [_ Hh].
      destruct (Ho Hh) as [-> Hls]. split; [done|]. by constructor. }
  induction addresses as [|a rest IH]; simpl.
  { calls_step. repeat split; constructor. }
  destruct (decide (addrType a = "Hostname")); [done|].
  calls_step. calls_step.
  destruct (decide (_ = eipURL)); [done|].
  destruct (http_NewRequest E _); [done|].
  calls_step. unfold Do. calls_step.
  destruct (httpClient_Do E h _) as [err|resp] eqn:Edo.
  - eapply calls_mono; [exact IH|]. simpl.
    intros o new Hnew. by apply Hskip.
  - destruct (decide (StatusCode resp = StatusOK)) as [H200|Hne].
    + calls_step. eapply calls_mono; [apply metal_assignTo_calls|]. simpl.
      intros res new [Hc Hh]. calls_step.
      rewrite app_nil_r.
      assert (Hno : ¬ Forall (λ ev, healthyProbe ev = false)
                      (EvDo (healthzURL (addrAddress a) (nodeAPIServerPort m))
                         (inr resp) :: new)).
      { intros Hp. apply Forall_cons in Hp as [Hev _]. simpl in Hev.
        by rewrite bool_decide_eq_true_2 in Hev. }
      split; [split|]; [by constructor|by intros ?|by intros ?].
    + eapply calls_mono; [exact IH|]. simpl.
      intros o new Hnew. by apply Hskip.
Qed.

Lemma metal_reassignNodes_calls ip eipURL nodes :
  calls m (reassignNodes E ip eipURL nodes)
    (λ res new, quietScan new ∧
                (Forall (λ ev, healthyProbe ev = false) new →
                 Forall (λ ev, failedLookup ev = false) new →
                 res = Some errNoCandidate)).
Proof.
  induction nodes as [|node rest IH]; simpl.
  { calls_step. repeat split; constructor. }
  calls_step. unfold NodeAddresses. calls_step.
  destruct (instances_NodeAddresses E h _) as [err|addresses].
  { calls_step. repeat split; try by repeat constructor.
    intros _ Hl. inversion Hl as [|?? Hev ?]; subst. done. }
  calls_step.
  eapply calls_mono; [apply metal_reassignAddresses_calls|]. simpl.
  intros o n1 [[Hc1 Hq1] Ho1].
  destruct o as [res|].
  - calls_step. rewrite app_nil_r. repeat split.
    + by constructor.
    + intros Hh. apply Forall_cons in Hh as [_ Hh].
      constructor; [done|]. by apply Hq1.
    + intros Hh. apply Forall_cons in Hh as [_ Hh].
      by destruct (Ho1 Hh).
  - eapply calls_mono; [exact IH|]. simpl.
    intros res n2 [[Hc2 Hq2] Hres]. repeat split.
    + constructor; [done|]. by apply Forall_app.
    + intros Hh. apply Forall_cons in Hh as [_ Hh].
      apply Forall_app in Hh as [Hh1 Hh2].
      constructor; [done|]. apply Forall_app. auto.
    + intros Hh Hl. apply Forall_cons in Hh as [_ Hh].
      apply Forall_app in Hh as [Hh1 Hh2].
      apply Forall_cons in Hl as [_ Hl].
      apply Forall_app in Hl as [Hl1 Hl2]. auto.
Qed.

Lemma metal_reassign_calls nodes ip eipURL :
  calls m (reassign E nodes ip eipURL)
    (λ res new, quietScan new ∧
                (Forall (λ ev, healthyProbe ev = false) new →
                 Forall (λ ev, failedLookup ev = false) new →
                 nodeAPIServerPort m ≠ 0 →
                 res = Some errNoCandidate)).
Proof.
  unfold reassign. calls_step. calls_step.
  destruct (decide (nodeAPIServerPort m = 0)) as [H0|Hne].
  - calls_step. repeat split; try constructor. done.
  - eapply calls_mono; [apply metal_reassignNodes_calls|]. simpl.
    intros res new [Hq Hres]. split; [done|]. auto.
Qed.
End WithEnv.
End MetalFacts.


Module MetalScan.
Import Metal.

Section Stable.
Variable E : env.
Variable m : controlPlaneEndpointManager.
Variable eipURL : string.
Variable addressesOf : string → list NodeAddress.
Variable probe : string → error + Response.

Hypothesis stable_probe :
  ∀ h u, u ≠ eipURL → httpClient_Do E h u = probe u.

Local Abbreviation urls :=
  (candidateURLs E (nodeAPIServerPort m) eipURL).

Lemma candidateURLs_cons a rest :
  urls (a :: rest) =
  match candidateURL E (nodeAPIServerPort m) eipURL a with
  | Some u => u :: urls rest
  | None => urls rest
  end.
Proof. reflexivity. Qed.

Lemma candidateURL_ne a u :
  candidateURL E (nodeAPIServerPort m) eipURL a = Some u → u ≠ eipURL.
Proof.
  unfold candidateURL. repeat case_decide; try done. by intros [= <-].
Qed.

(** A node none of whose probed addresses is healthy. *)
Lemma reassignAddresses_unhealthy node ip addresses :
  Forall (λ u, healthy probe u = false) (urls addresses) →
  calls m (reassignAddresses E node ip eipURL addresses)
    (λ o new, o = None ∧ new = probeEvent probe <$> urls addresses).
Proof.
  induction addresses as [|a rest IH]; intros Hall.
  { simpl. by calls_step. }
  rewrite candidateURLs_cons in Hall |- *.
  cbn [reassignAddresses].
  unfold candidateURL in *.
  destruct (decide (addrType a = "Hostname")); [by apply IH|].
  calls_step. calls_step. cbv zeta in *.
  destruct (decide (_ = eipURL)); [by apply IH|].
  destruct (http_NewRequest E _) as [e|] eqn:Ereq.
  { rewrite decide_False in Hall |- * by done. by apply IH. }
  rewrite decide_True in Hall |- * by done.
  apply Forall_cons in Hall as [Hu Hall].
  calls_step. unfold Do. calls_step.
  rewrite stable_probe by done.
  unfold healthy, healthyProbe in Hu.
  destruct (probe _) as [err|resp] eqn:Ep.
  - eapply calls_mono; [by apply IH|]. simpl.
    intros o new [-> ->]. split; [done|].
    unfold probeEvent at 2. by rewrite Ep.
  - apply bool_decide_eq_false_1 in Hu.
    rewrite decide_False by done.
    eapply calls_mono; [by apply IH|]. simpl.
    intros o new [-> ->]. split; [done|].
    unfold probeEvent at 2. by rewrite Ep.
Qed.

Variable node : Node.
Variable ip : IPAddressReservation.
Variable deviceID : string.

Hypothesis instance_found :
  ∀ h, instances_InstanceID E h (nodeName node) = inr deviceID.
Hypothesis unassign_ok : ∀ h id, deviceIPSrv_Unassign E h id = None.

Lemma assignTo_found :
  calls m (assignTo E node ip) (λ res new, new = assignEvents node ip deviceID res).
Proof.
  unfold assignTo, assignEvents, unassignEvents.
  calls_step. unfold InstanceID. calls_step. rewrite instance_found.
  calls_step.
  destruct (resAssignments ip) as [|a [|a' l]].
  - calls_step. calls_step. unfold Assign. calls_step.
    by destruct (deviceIPSrv_Assign E _ _ _); calls_step.
  - unfold Unassign. calls_step. rewrite unassign_ok.
    calls_step. unfold Assign. calls_step.
    by destruct (deviceIPSrv_Assign E _ _ _); calls_step.
  - calls_step. calls_step. unfold Assign. calls_step.
    by destruct (deviceIPSrv_Assign E _ _ _); calls_step.
Qed.

(** A node whose first healthy probed address is [u]. *)
Lemma reassignAddresses_found addresses us1 u us2 :
  urls addresses = us1 ++ u :: us2 →
  Forall (λ u, healthy probe u = false) us1 →
  healthy probe u = true →
  calls m (reassignAddresses E node ip eipURL addresses)
    (λ o new, ∃ res, o = Some res ∧
       new = (probeEvent probe <$> us1)
             ++ probeEvent probe u :: assignEvents node ip deviceID res).
Proof.
  revert us1. induction addresses as [|a rest IH]; intros us1 Hsplit Hun Hu.
  { by destruct us1. }
  rewrite candidateURLs_cons in Hsplit.
  cbn [reassignAddresses].
  unfold candidateURL in *.
  destruct (decide (addrType a = "Hostname")); [by apply IH|].
  calls_step. calls_step. cbv zeta in *.
  destruct (decide (_ = eipURL)); [by apply IH|].
  destruct (http_NewRequest E _) as [e|] eqn:Ereq.
  { rewrite decide_False in Hsplit by done. by apply IH. }
  rewrite decide_True in Hsplit by done.
  calls_step. unfold Do. calls_step.
  rewrite stable_probe by done.
  destruct us1 as [|v us1]; simpl in Hsplit; injection Hsplit as Hv Hrest.
  - subst u. unfold healthy, healthyProbe in Hu.
    destruct (probe _) as [err|resp] eqn:Ep; [done|].
    apply bool_decide_eq_true_1 in Hu. rewrite decide_True by done.
    calls_step. eapply calls_mono; [apply assignTo_found|]. simpl.
    intros res new ->. calls_step. exists res. split; [done|].
    unfold probeEvent. rewrite app_nil_r. by rewrite Ep.
  - subst v. apply Forall_cons in Hun as [Hv Hun].
    unfold healthy, healthyProbe in Hv.
    destruct (probe _) as [err|resp] eqn:Ep.
    + eapply calls_mono; [by apply IH|]. simpl.
      intros o new (res & -> & ->). exists res. split; [done|].
      unfold probeEvent at 3. by rewrite Ep.
    + apply bool_decide_eq_false_1 in Hv. rewrite decide_False by done.
      eapply calls_mono; [by apply IH|]. simpl.
      intros o new (res & -> & ->). exists res. split; [done|].
      unfold probeEvent at 3. by rewrite Ep.
Qed.

(** The nodes before [node] have no healthy address; [node] has. *)
Lemma reassignNodes_found ns1 ns2 us1 u us2 :
  (∀ h n, n ∈ ns1 ++ [node] →
     instances_NodeAddresses E h (nodeName n)
     = inr (addressesOf (nodeName n))) →
  Forall (λ n, Forall (λ u, healthy probe u = false)
                 (urls (addressesOf (nodeName n)))) ns1 →
  urls (addressesOf (nodeName node)) = us1 ++ u :: us2 →
  Forall (λ u, healthy probe u = false) us1 →
  healthy probe u = true →
  calls m (reassignNodes E ip eipURL (ns1 ++ node :: ns2))
    (λ res new,
       new = flat_map (scanEvents E (nodeAPIServerPort m) eipURL
                         addressesOf probe) ns1
             ++ EvNodeAddresses (nodeName node)
                  (inr (addressesOf (nodeName node)))
             :: (probeEvent probe <$> us1)
             ++ probeEvent probe u :: assignEvents node ip deviceID res).
Proof.
  intros Haddr Hns1 Hsplit Hus1 Hu.
  induction ns1 as [|n ns1 IH]; cbn [app reassignNodes].
  - calls_step. unfold NodeAddresses. calls_step.
    rewrite Haddr by (apply list_elem_of_In; by left).
    calls_step.
    eapply calls_mono; [by apply (reassignAddresses_found _ us1 u us2)|].
    simpl. intros o new (res & -> & ->). calls_step.
    by rewrite app_nil_r.
  - apply Forall_cons in Hns1 as [Hn Hns1].
    calls_step. unfold NodeAddresses. calls_step.
    rewrite Haddr by (apply list_elem_of_In; by left).
    calls_step.
    eapply calls_mono; [by apply reassignAddresses_unhealthy|].
    simpl. intros o new [-> ->].
    eapply calls_mono.
    { apply IH; [|done]. intros h' n' Hn'. apply Haddr. by right. }
    simpl. intros res new ->. unfold scanEvents at 2.
    by rewrite <- !app_assoc.
Qed.
End Stable.
End MetalScan.

Module PacketFacts.
Import Packet.

Section WithEnv.
Variable E : env.
Variable m : controlPlaneEndpointManager.

Lemma packet_assignTo_calls node ip :
  calls m (assignTo E node ip)
    (λ _ new, Forall (λ ev, bodyClose ev = false) new).
Proof.
  unfold assignTo, InstanceID, Unassign, Assign.
  calls_go; repeat constructor.
Qed.

Lemma packet_reassignAddresses_calls node ip addresses :
  calls m (reassignAddresses E node ip addresses)
    (λ _ new, Forall (λ ev, bodyClose ev = false) new).
Proof.
  induction addresses as [|a rest IH]; simpl.
  { calls_step. constructor. }
  destruct (decide (addrType a = "Hostname")); [done|].
  calls_step. calls_step.
  destruct (http_NewRequest E _); [done|].
  calls_step. unfold Do. calls_step.
  destruct (httpClient_Do E h _) as [err|resp].
  - eapply calls_mono; [exact IH|]. simpl. intros _ new Hc.
    by constructor.
  - destruct (decide (StatusCode resp = StatusOK)).
    + calls_step. eapply calls_mono; [apply packet_assignTo_calls|]. simpl.
      intros res new Hc. calls_step. rewrite app_nil_r. by constructor.
    + eapply calls_mono; [exact IH|]. simpl. intros _ new Hc.
      by constructor.
Qed.

Lemma packet_reassign_calls nodes ip :
  calls m (reassign E nodes ip)
    (λ _ new, Forall (λ ev, bodyClose ev = false) new).
Proof.
  induction nodes as [|node rest IH]; simpl.
  { calls_step. constructor. }
  calls_step. unfold NodeAddresses. calls_step.
  destruct (instances_NodeAddresses E h _) as [err|addresses].
  { calls_step. by repeat constructor. }
  calls_step.
  eapply calls_mono; [apply packet_reassignAddresses_calls|]. simpl.
  intros o n1 Hc1. destruct o as [res|].
  - calls_step. rewrite app_nil_r. by constructor.
  - eapply calls_mono; [exact IH|]. simpl. intros res n2 Hc2.
    constructor; [done|]. by apply Forall_app.
Qed.

(** The guarded part of [reconcileNodes] leaves the manager alone. *)
Lemma packet_reconcileNodesGuarded_calls nodes :
  calls m (reconcileNodesGuarded E nodes) (λ _ _, True).
Proof.
  unfold reconcileNodesGuarded, afterProbe, List_, Do, BodyClose.
  calls_step. calls_step.
  destruct (decide (eipTag m = "")); [by calls_step|].
  calls_step. calls_step.
  destruct (ipResSvr_List E h _) as [ipList [e|]]; [by calls_step|].
  destruct (ipReservationByTags _ ipList) as [cpe|]; [|by calls_step].
  destruct (decide (1 < length (resAssignments cpe))%nat); [by calls_step|].
  cbv zeta. destruct (http_NewRequest E _); [by calls_step|].
  calls_step. calls_step. calls_step.
  destruct (httpClient_Do E _ _) as [err|resp].
  { eapply calls_mono; [apply packet_reassign_calls|]. simpl.
    intros [err'|] new _; by calls_step. }
  destruct (decide (StatusCode resp = StatusOK)).
  - calls_step. destruct (hasBody resp); by calls_go.
  - eapply calls_mono; [apply packet_reassign_calls|]. simpl.
    intros [err|] new _; [by calls_step|].
    destruct (hasBody resp); by calls_go.
Qed.
End WithEnv.
End PacketFacts.

Module MetalGuarded.
Import Metal.

(** The guarded part of [reconcileNodes] leaves the manager alone. *)
Lemma metal_reconcileNodesGuarded_calls E m nodes :
  calls m (reconcileNodesGuarded E nodes) (λ _ _, True).
Proof.
  unfold reconcileNodesGuarded, afterProbe, List_, Do, BodyClose.
  calls_step. calls_step.
  destruct (decide (eipTag m = "")); [by calls_step|].
  calls_step. calls_step.
  destruct (ipResSvr_List E h _) as [ipList [e|]]; [by calls_step|].
  destruct (ipReservationByAllTags _ ipList) as [cpe|]; [|by calls_step].
  destruct (decide (1 < length (resAssignments cpe))%nat); [by calls_step|].
  cbv zeta. destruct (http_NewRequest E _); [by calls_step|].
  calls_step. calls_step. calls_step.
  destruct (httpClient_Do E _ _) as [err|resp].
  - eapply calls_mono; [apply MetalFacts.metal_reassign_calls|]. simpl.
    intros res new _. by calls_go.
  - destruct (decide (StatusCode resp = StatusOK)).
    + calls_step. destruct (hasBody resp); by calls_go.
    + eapply calls_mono; [apply MetalFacts.metal_reassign_calls|]. simpl.
      intros res new _. destruct (hasBody resp); by calls_go.
Qed.
End MetalGuarded.

(** ** The service mirror: facts *)

Lemma updateShape_prepend (pre new : list event) :
  Forall (λ ev, serviceUpdate ev = false) pre →
  updateShape new → updateShape (pre ++ new).
Proof.
  intros Hpre [Hall|(p & old & u & r & post & -> & Hown & Hp & Hpost)].
  - left. by apply Forall_app.
  - right. exists (pre ++ p), old, u, r, post.
    rewrite <- app_assoc. split; [done|]. split; [done|].
    split; [by apply Forall_app|done].
Qed.

(** Where a marked element sits in a list is determined when the rest of
    the list is unmarked. *)
Lemma marked_position {A} (P : A → bool) (l1 l2 p q : list A) (x y : A) :
  Forall (λ a, P a = false) l1 → Forall (λ a, P a = false) l2 →
  P y = true →
  l1 ++ x :: l2 = p ++ y :: q → p = l1 ∧ y = x ∧ q = l2.
Proof.
  intros H1 H2 Hy. revert p.
  induction l1 as [|a l1 IH]; intros p Heq.
  - destruct p as [|b p]; simpl in Heq.
    + by injection Heq as -> ->.
    + injection Heq as -> ->.
      apply Forall_app in H2 as [_ H2]. apply Forall_cons in H2 as [Hy' _].
      congruence.
  - apply Forall_cons in H1 as [Ha H1].
    destruct p as [|b p]; simpl in Heq.
    + injection Heq as -> _. congruence.
    + injection Heq as -> Heq. destruct (IH H1 p Heq) as (-> & -> & ->). done.
Qed.

Lemma updateShape_update (new pre post : list event) ns u r :
  updateShape new →
  new = pre ++ EvServicesUpdate ns u r :: post →
  ∃ pre' old,
    pre = pre' ++ [EvServicesGet externalServiceNamespace externalServiceName (inr old)] ∧
    ns = externalServiceNamespace ∧ ownedFieldsOnly old u.
Proof.
  intros [Hall|(p & old & u' & r' & q & -> & Hown & Hp & Hq)] Heq.
  - subst new. apply Forall_app in Hall as [_ Hall].
    by apply Forall_cons in Hall as [? _].
  - replace (p ++ EvServicesGet externalServiceNamespace externalServiceName (inr old)
               :: EvServicesUpdate externalServiceNamespace u' r' :: q)
      with ((p ++ [EvServicesGet externalServiceNamespace externalServiceName (inr old)])
              ++ EvServicesUpdate externalServiceNamespace u' r' :: q) in Heq
      by (by rewrite <- app_assoc).
    apply (marked_position serviceUpdate) in Heq as (-> & Hu & _); try done.
    + injection Hu as -> -> ->. eauto.
    + apply Forall_app. split; [done|]. by repeat constructor.
Qed.

Module MetalServices.
Import Metal.

Section WithEnv.
Variable E : env.

Lemma publishStatus_calls m eip :
  calls m (publishStatus E eip)
    (λ _ new, Forall (λ ev, serviceUpdate ev = false) new).
Proof.
  unfold publishStatus, ServicesGet, ServicesUpdateStatus.
  calls_go; by repeat constructor.
Qed.

Lemma mirrorEndpoints_calls m svc :
  calls m (mirrorEndpoints E svc)
    (λ _ new, Forall (λ ev, serviceUpdate ev = false) new).
Proof.
  unfold mirrorEndpoints, EndpointsGet, EndpointsUpdate, EndpointsCreate.
  calls_go; by repeat constructor.
Qed.

Lemma mirrorService_calls m eip existingPorts :
  calls m (mirrorService E eip existingPorts) (λ _ new, updateShape new).
Proof.
  unfold mirrorService, ServicesGet, ServicesUpdate, ServicesCreate.
  calls_step. calls_step. cbv zeta. calls_step. calls_step.
  destruct (services_Get E h _ _) as [err|old].
  - calls_step. calls_step. calls_step.
    destruct (services_Create E _ _ _) as [e|]; simpl; calls_step; simpl.
    + calls_step. left. by repeat constructor.
    + eapply calls_mono; [apply publishStatus_calls|]. simpl.
      intros _ new Hn. left. by repeat constructor.
  - calls_step. calls_step. calls_step.
    match goal with
    | |- context [EvServicesUpdate _ ?u ?r] =>
        assert (Hshape : ∀ post,
          Forall (λ ev, serviceUpdate ev = false) post →
          updateShape
            (EvServicesGet externalServiceNamespace externalServiceName (inr old)
             :: EvServicesUpdate externalServiceNamespace u r :: post))
    end.
    { intros post Hpost. right. eexists [], old, _, _, post.
      repeat split; try done. }
    destruct (services_Update E _ _ _) as [e|]; simpl; calls_step; simpl.
    + calls_step. by apply Hshape.
    + eapply calls_mono; [apply publishStatus_calls|]. simpl.
      intros _ new Hn. by apply Hshape.
Qed.

Lemma reconcileService_run m svc eip h res s' :
  reconcileService E svc eip (St m h) = (res, s') →
  mgr s' = adoptPorts svc m ∧
  ∃ new, trace s' = h ++ new ∧ updateShape new.
Proof.
  unfold reconcileService, adoptPorts.
  destruct (Ports (Spec svc)) as [|p0 ps] eqn:Eports.
  { intros [= <- <-]. split; [done|]. exists []. rewrite app_nil_r.
    split; [done|]. left. constructor. }
  cbv zeta. set (m2 := if decide _ then _ else _).
  unfold mbind at 1 2, M_bind, get_mgr, put_mgr. simpl.
  assert (Hc : calls m2
            (e ← mirrorEndpoints E svc;
             match e with
             | Some err => mret (Some err)
             | None => mirrorService E eip (p0 :: ps)
             end) (λ _ new, updateShape new)).
  { calls_step. eapply calls_mono; [apply mirrorEndpoints_calls|]. simpl.
    intros [err|] n1 Hn1.
    - calls_step. left. by rewrite app_nil_r.
    - eapply calls_mono; [apply mirrorService_calls|]. simpl.
      intros _ n2 Hn2. by apply updateShape_prepend. }
  intros Hrun. apply (calls_run _ _ _ _ _ _ Hc) in Hrun as (new & -> & Hnew).
  split; [done|]. by exists new.
Qed.

Lemma reconcileServicesLoop_run m eip mode svcs h res s' :
  reconcileServicesLoop E eip mode svcs (St m h) = (res, s') →
  mgr s' = match List.find isDefaultKubernetes svcs with
           | Some svc => adoptPorts svc m
           | None => m
           end ∧
  ∃ new, trace s' = h ++ new ∧ updateShape new.
Proof.
  revert h. induction svcs as [|svc rest IH]; intros h; simpl.
  { intros Hrun. assert (s' = St m h) as ->.
    { by destruct (decide (mode = ModeSync)); injection Hrun as _ <-. }
    split; [done|]. exists []. rewrite app_nil_r. split; [done|].
    left. constructor. }
  unfold isDefaultKubernetes.
  destruct (decide (Namespace (svcMeta svc) = "default")) as [Hns|Hns];
    [destruct (decide (Name (svcMeta svc) = "kubernetes")) as [Hn|Hn]|].
  - rewrite !bool_decide_eq_false_2 by (by intros ?).
    rewrite !bool_decide_eq_true_2 by done. simpl.
    apply reconcileService_run.
  - rewrite (bool_decide_eq_true_2 (Name _ ≠ _)) by done.
    rewrite (bool_decide_eq_false_2 (Name _ = _)) by done.
    rewrite orb_true_r, andb_false_r. apply IH.
  - rewrite (bool_decide_eq_true_2 (Namespace _ ≠ _)) by done.
    rewrite (bool_decide_eq_false_2 (Namespace _ = _)) by done.
    simpl. apply IH.
Qed.

Lemma reconcileServices_run m svcs mode h res s' :
  reconcileServices E svcs mode (St m h) = (res, s') →
  (mgr s' = m ∨ ∃ svc, List.find isDefaultKubernetes svcs = Some svc ∧
                       mgr s' = adoptPorts svc m) ∧
  ∃ new, trace s' = h ++ new ∧ updateShape new.
Proof.
  unfold reconcileServices. unfold_run.
  assert (Hnone : ∀ new, Forall (λ ev, serviceUpdate ev = false) new →
            updateShape new) by (intros; by left).
  destruct (decide (eipTag m = "")).
  { intros [= <- <-]. split; [by left|]. exists []. rewrite app_nil_r.
    split; [done|]. apply Hnone. constructor. }
  simpl. destruct (ipResSvr_List E h (projectID m)) as [ipList [e|]] eqn:El; simpl.
  { intros [= <- <-]. split; [by left|]. eexists. split; [done|].
    apply Hnone. by repeat constructor. }
  destruct (ipReservationByAllTags _ ipList) as [cpe|].
  2:{ intros [= <- <-]. split; [by left|]. eexists. split; [done|].
      apply Hnone. by repeat constructor. }
  destruct (decide (1 < length (resAssignments cpe))%nat).
  { intros [= <- <-]. split; [by left|]. eexists. split; [done|].
    apply Hnone. by repeat constructor. }
  intros Hrun. apply reconcileServicesLoop_run in Hrun as [Hm (new & Ht & Hs)].
  split.
  - destruct (List.find isDefaultKubernetes svcs) as [svc|]; eauto.
  - exists (EvList (projectID m) (ipList, None) :: new).
    split; [by rewrite Ht, <- app_assoc|].
    apply (updateShape_prepend [_]); [by repeat constructor|done].
Qed.
End WithEnv.
End MetalServices.

(** ** The model on the scenarios *)

Example healthzURL_example :
  healthzURL "10.0.0.1" 6443 = "https://10.0.0.1:6443/healthz".
Proof. reflexivity. Qed.

Example healthzURL_negative_port :
  healthzURL "node" (-1) = "https://node:-1/healthz".
Proof. reflexivity. Qed.

Example cpNodesOf_example :
  cpNodesOf Scenario.nodes = [Scenario.cp0; Scenario.cp1].
Proof. by vm_compute. Qed.

Example ipReservationByAllTags_example :
  ipReservationByAllTags ["cp"] [Scenario.otherIP; Scenario.eip]
  = Some Scenario.eip.
Proof. by vm_compute. Qed.

Example candidateURLs_example :
  candidateURLs Scenario.E 6443 Scenario.eipURL (Scenario.addressesOf "cp-0")
  = ["https://10.0.0.1:6443/healthz"].
Proof. by vm_compute. Qed.

(** A healthy elastic IP: one listing, one probe, its body released. *)
Example reconcileNodes_healthy :
  Metal.reconcileNodes Scenario.Eeager [] ModeSync
    (St (Metal.set_nodeAPIServerPort 6443
           (Metal.newControlPlaneEndpointManager "cluster-b" "proj" 6443)) [])
  = (None,
     St (Metal.set_nodeAPIServerPort 6443
           (Metal.newControlPlaneEndpointManager "cluster-b" "proj" 6443))
        [ EvList "proj" ([Scenario.otherIP; Scenario.eip], None);
          EvDo "https://147.75.0.9:6443/healthz" (inr Scenario.okResponse);
          EvBodyClose "https://147.75.0.9:6443/healthz" ]).
Proof. by vm_compute. Qed.

(** The first pass of [reconcileServices] on a stored mirror. *)
Example reconcileServices_trace :
  (λ ev, match ev with
         | EvList _ _ => "list"
         | EvEndpointsGet _ _ _ => "endpoints get"
         | EvEndpointsCreate _ _ _ => "endpoints create"
         | EvEndpointsUpdate _ _ _ => "endpoints update"
         | EvServicesGet _ _ _ => "service get"
         | EvServicesUpdate _ _ _ => "service update"
         | EvServicesCreate _ _ _ => "service create"
         | EvServicesUpdateStatus _ _ _ => "service update status"
         | _ => "other"
         end)
  <$> trace (Metal.reconcileServices Scenario.E [Scenario.upstream] ModeSync
               (St Scenario.unsetMetal [])).2
  = ["list"; "endpoints get"; "endpoints get"; "endpoints create";
     "service get"; "service update"; "service get"; "service update status"].
Proof. by vm_compute. Qed.

(** ** The guard of [reconcileNodes] *)

Lemma metal_guard_roundtrip (m : Metal.controlPlaneEndpointManager) :
  Metal.inProcess m = false →
  Metal.set_inProcess false (Metal.set_inProcess true m) = m.
Proof. destruct m; simpl; by intros ->. Qed.

Lemma packet_guard_roundtrip (m : Packet.controlPlaneEndpointManager) :
  Packet.inProcess m = false →
  Packet.set_inProcess false (Packet.set_inProcess true m) = m.
Proof. destruct m; simpl; by intros ->. Qed.

(** [reconcileNodes] returns with the manager it was called with. *)
Lemma metal_reconcileNodes_mgr E nodes mode m h :
  mgr (Metal.reconcileNodes E nodes mode (St m h)).2 = m.
Proof.
  unfold Metal.reconcileNodes.
  unfold mbind at 1, M_bind, get_mgr. simpl.
  destruct (Metal.inProcess m) eqn:Hin; [done|].
  destruct (decide (Metal.apiServerPort m = 0)); [done|].
  unfold mbind, M_bind, put_mgr, get_mgr, mret, M_ret. simpl.
  destruct (Metal.reconcileNodesGuarded E nodes _) as [res s'] eqn:Hrun.
  eapply calls_run in Hrun as (new & -> & _);
    [|apply MetalGuarded.metal_reconcileNodesGuarded_calls].
  simpl. by apply metal_guard_roundtrip.
Qed.

Lemma packet_reconcileNodes_mgr E nodes remove m h :
  mgr (Packet.reconcileNodes E nodes remove (St m h)).2 = m.
Proof.
  unfold Packet.reconcileNodes.
  unfold mbind at 1, M_bind, get_mgr. simpl.
  destruct (Packet.inProcess m) eqn:Hin; [done|].
  unfold mbind, M_bind, put_mgr, get_mgr, mret, M_ret. simpl.
  destruct (Packet.reconcileNodesGuarded E nodes _) as [res s'] eqn:Hrun.
  eapply calls_run in Hrun as (new & -> & _);
    [|apply PacketFacts.packet_reconcileNodesGuarded_calls].
  simpl. by apply packet_guard_roundtrip.
Qed.

(** C6: called while the guard flag is set, [reconcileNodes] returns nil at
    once: no call is made, no probe is issued, the trace and the manager are
    what they were.  Both variants. *)
Theorem reconcileNodes_skips_when_in_process
    E nodes mode remove (m : Metal.controlPlaneEndpointManager)
    (m' : Packet.controlPlaneEndpointManager) h :
  Metal.inProcess m = true →
  Packet.inProcess m' = true →
  Metal.reconcileNodes E nodes mode (St m h) = (None, St m h) ∧
  Packet.reconcileNodes E nodes remove (St m' h) = (Returned None, St m' h).
Proof.
  intros Hm Hm'. split.
  - unfold Metal.reconcileNodes. unfold_run. by rewrite Hm.
  - unfold Packet.reconcileNodes. unfold_run. by rewrite Hm'.
Qed.

(** C10: an invocation of [reconcileNodes] that found the guard flag clear
    leaves it clear, whatever it returns (nil, a configuration error, a lookup
    error, a reassignment error) and, in the older variant, also when it
    panics.  Both variants. *)
Theorem reconcileNodes_clears_guard
    E nodes mode remove (m : Metal.controlPlaneEndpointManager)
    (m' : Packet.controlPlaneEndpointManager) h :
  Metal.inProcess m = false →
  Packet.inProcess m' = false →
  Metal.inProcess (mgr (Metal.reconcileNodes E nodes mode (St m h)).2) = false ∧
  Packet.inProcess (mgr (Packet.reconcileNodes E nodes remove (St m' h)).2) = false.
Proof.
  intros Hm Hm'.
  by rewrite metal_reconcileNodes_mgr, packet_reconcileNodes_mgr.
Qed.

Lemma reconcileNodesRepeatedly_never_skipped E invocations s :
  Metal.inProcess (mgr s) = false →
  Forall (λ guard, guard = false) (reconcileNodesRepeatedly E invocations s).1.
Proof.
  revert s. induction invocations as [|[nodes mode] rest IH]; intros [m h] Hm; simpl.
  { constructor. }
  specialize (IH (Metal.reconcileNodes E nodes mode (St m h)).2).
  destruct (reconcileNodesRepeatedly E rest _) as [guards s'].
  simpl in *. constructor; [done|]. apply IH.
  by rewrite metal_reconcileNodes_mgr.
Qed.

(** ** Rejected reservations *)

(** C4: when the resolved reservation has two or more assignments, both
    reconcilers return the multi-assignment error; the listing is the only
    call they make (no probe, no unassign or assign, no write to the
    orchestrator) and the manager is unchanged. *)
Theorem multi_assignment_rejected
    E nodes svcs mode (m : Metal.controlPlaneEndpointManager) h ipList ip :
  Metal.eipTag m ≠ "" →
  ipResSvr_List E h (Metal.projectID m) = (ipList, None) →
  ipReservationByAllTags [Metal.eipTag m] ipList = Some ip →
  (2 ≤ length (resAssignments ip))%nat →
  (Metal.inProcess m = false → Metal.apiServerPort m ≠ 0 →
   Metal.reconcileNodes E nodes mode (St m h)
   = (Some (Metal.errMultiAssigned (resID ip)),
      St m (h ++ [EvList (Metal.projectID m) (ipList, None)]))) ∧
  Metal.reconcileServices E svcs mode (St m h)
  = (Some (Metal.errMultiAssigned (resID ip)),
     St m (h ++ [EvList (Metal.projectID m) (ipList, None)])).
Proof.
  intros Htag Hlist Hres Hlen. split.
  - intros Hin Hport.
    unfold Metal.reconcileNodes, Metal.reconcileNodesGuarded. unfold_run.
    rewrite Hin. rewrite decide_False by done. simpl.
    rewrite decide_False by done. simpl. rewrite Hlist. simpl. rewrite Hres.
    rewrite decide_True by lia. simpl.
    by rewrite metal_guard_roundtrip.
  - unfold Metal.reconcileServices. unfold_run.
    rewrite decide_False by done. simpl. rewrite Hlist. simpl. rewrite Hres.
    by rewrite decide_True by lia.
Qed.

(** C9: when no reservation of the listing carries the configured tag, both
    reconcilers return the error of the listing itself, which is nil when the
    listing succeeded; the listing is the only call they make and the manager
    is unchanged. *)
Theorem no_reservation_no_mutation
    E nodes svcs mode (m : Metal.controlPlaneEndpointManager) h ipList err :
  Metal.eipTag m ≠ "" →
  ipResSvr_List E h (Metal.projectID m) = (ipList, err) →
  (∀ r, r ∈ ipList → Metal.eipTag m ∉ resTags r) →
  (Metal.inProcess m = false → Metal.apiServerPort m ≠ 0 →
   Metal.reconcileNodes E nodes mode (St m h)
   = (err, St m (h ++ [EvList (Metal.projectID m) (ipList, err)]))) ∧
  Metal.reconcileServices E svcs mode (St m h)
  = (err, St m (h ++ [EvList (Metal.projectID m) (ipList, err)])).
Proof.
  intros Htag Hlist Hno.
  apply ipReservationByAllTags_none in Hno. split.
  - intros Hin Hport.
    unfold Metal.reconcileNodes, Metal.reconcileNodesGuarded. unfold_run.
    rewrite Hin. rewrite decide_False by done. simpl.
    rewrite decide_False by done. simpl. rewrite Hlist. simpl.
    destruct err as [e|]; simpl.
    + by rewrite metal_guard_roundtrip.
    + rewrite Hno. simpl. by rewrite metal_guard_roundtrip.
  - unfold Metal.reconcileServices. unfold_run.
    rewrite decide_False by done. simpl. rewrite Hlist. simpl.
    destruct err as [e|]; simpl; [done|]. by rewrite Hno.
Qed.

(** ** Exhausted candidates *)

(** C5, counterexample: two inputs on which no probe is answered with 200
    and the error returned is not the exhaustion error.  On the manager as
    constructed the node-side port is not known yet, and [reassign] returns
    the error of its port guard; with the port known, the address lookup of
    cp-0 fails and [reassign] returns the error of the lookup. *)
Lemma exhaustion_claim_fails :
  ¬ exhaustionClaim Scenario.Edown [Scenario.cp0; Scenario.cp1] Scenario.eip
      Scenario.eipURL Scenario.freshMetal ∧
  ¬ exhaustionClaim Scenario.Elookup [Scenario.cp0; Scenario.cp1] Scenario.eip
      Scenario.eipURL Scenario.readyMetal.
Proof.
  unfold exhaustionClaim. split; intros H.
  - assert (Hq : Forall (λ ev, healthyProbe ev = false)
              (trace (Metal.reassign Scenario.Edown [Scenario.cp0; Scenario.cp1]
                        Scenario.eip Scenario.eipURL
                        (St Scenario.freshMetal [])).2)) by constructor.
    apply H in Hq as [_ Hres]. vm_compute in Hres. discriminate Hres.
  - assert (Hq : Forall (λ ev, healthyProbe ev = false)
              (trace (Metal.reassign Scenario.Elookup [Scenario.cp0; Scenario.cp1]
                        Scenario.eip Scenario.eipURL
                        (St Scenario.readyMetal [])).2))
      by (vm_compute; repeat constructor).
    apply H in Hq as [_ Hres]. vm_compute in Hres. discriminate Hres.
Qed.

(** C5, amended: when no probe made by [reassign] is answered with 200, no
    unassign and no assign call is made and the manager is unchanged; when
    moreover the node-side port is known and every node-address lookup
    succeeded, the exhaustion error is returned. *)
Theorem reassign_without_candidate
    E nodes ip eipURL (m : Metal.controlPlaneEndpointManager) h res s' new :
  Metal.reassign E nodes ip eipURL (St m h) = (res, s') →
  trace s' = h ++ new →
  Forall (λ ev, healthyProbe ev = false) new →
  mgr s' = m ∧
  Forall (λ ev, reassignmentCall ev = false) new ∧
  (Metal.nodeAPIServerPort m ≠ 0 →
   Forall (λ ev, failedLookup ev = false) new →
   res = Some Metal.errNoCandidate).
Proof.
  intros Hrun Htrace Hnone.
  pose proof (calls_run _ _ _ _ _ _
                (MetalFacts.metal_reassign_calls E m nodes ip eipURL) Hrun)
    as (new' & -> & [[_ Hquiet] Hres]).
  simpl in Htrace. apply app_inv_head in Htrace as ->.
  split; [done|]. split; [by apply Hquiet|]. intros Hport Hlook.
  by apply Hres.
Qed.

Lemma reassign_without_candidate_witness :
  (Metal.reassign Scenario.Edown [Scenario.cp0; Scenario.cp1] Scenario.eip
     Scenario.eipURL (St Scenario.readyMetal [])).1
  = Some Metal.errNoCandidate.
Proof.
  set (run := Metal.reassign Scenario.Edown [Scenario.cp0; Scenario.cp1]
                Scenario.eip Scenario.eipURL (St Scenario.readyMetal [])).
  destruct (reassign_without_candidate Scenario.Edown
              [Scenario.cp0; Scenario.cp1] Scenario.eip Scenario.eipURL
              Scenario.readyMetal [] run.1 run.2 (trace run.2))
    as (_ & _ & Hres).
  - apply surjective_pairing.
  - reflexivity.
  - vm_compute. repeat constructor.
  - apply Hres; [done|]. vm_compute. repeat constructor.
Defined.

(** ** Response bodies *)

(** [reassign] never releases a response body, in either variant. *)
Lemma reassign_never_closes E nodes ip eipURL
    (m : Metal.controlPlaneEndpointManager)
    (m' : Packet.controlPlaneEndpointManager) h :
  (∃ new, trace (Metal.reassign E nodes ip eipURL (St m h)).2 = h ++ new ∧
          Forall (λ ev, bodyClose ev = false) new) ∧
  (∃ new, trace (Packet.reassign E nodes ip (St m' h)).2 = h ++ new ∧
          Forall (λ ev, bodyClose ev = false) new).
Proof.
  split.
  - pose proof (MetalFacts.metal_reassign_calls E m nodes ip eipURL) as Hcalls.
    destruct (Hcalls h) as (a & new & -> & [[Hc _] _]). by exists new.
  - pose proof (PacketFacts.packet_reassign_calls E m' nodes ip) as Hcalls.
    destruct (Hcalls h) as (a & new & -> & Hc). by exists new.
Qed.

(** C3, failing input: the elastic IP answers 503 and cp-1 is healthy.
    [reconcileNodes] receives three bodies (of the elastic IP, of cp-0 and of
    cp-1) and releases only the first; [reassign] alone receives two and
    releases none. *)
Theorem reassign_leaves_bodies_open :
  let run := Metal.reconcileNodes Scenario.Edegraded Scenario.nodes ModeSync
               (St Scenario.readyMetal []) in
  let scan := Metal.reassign Scenario.Edegraded [Scenario.cp0; Scenario.cp1]
                Scenario.eip Scenario.eipURL (St Scenario.readyMetal []) in
  omap Scenario.receivedBody (trace run.2)
  = [Scenario.eipURL; "https://10.0.0.1:6443/healthz";
     "https://10.0.0.2:6443/healthz"] ∧
  omap Scenario.releasedBody (trace run.2) = [Scenario.eipURL] ∧
  omap Scenario.receivedBody (trace scan.2)
  = ["https://10.0.0.1:6443/healthz"; "https://10.0.0.2:6443/healthz"] ∧
  omap Scenario.releasedBody (trace scan.2) = [].
Proof. vm_compute. done. Qed.

(** ** Panics of the older variant *)

(** After a probe whose transport failed, the older [reconcileNodes] never
    returns nil: it returns the error of [reassign] or it panics. *)
Lemma packet_transport_failure_never_nil E nodes ip url err s :
  (Packet.afterProbe E nodes ip url (inl err) s).1 ≠ Returned None.
Proof.
  unfold Packet.afterProbe, mbind, M_bind, mret, M_ret.
  by destruct (Packet.reassign E (cpNodesOf nodes) ip s) as [[e|] s'].
Qed.

(** C2, failing input: the probe of the elastic IP times out and cp-1 is
    healthy.  The older [reconcileNodes] reassigns the address and then
    panics on [resp.Body]; the newer one returns nil. *)
Theorem packet_reconcileNodes_panics_after_reassignment :
  let old := Packet.reconcileNodes Scenario.E Scenario.nodes false
               (St Scenario.freshPacket []) in
  let new := Metal.reconcileNodes Scenario.E Scenario.nodes ModeSync
               (St Scenario.readyMetal []) in
  old.1 = Panicked Packet.nilDereference ∧
  last (trace old.2) = Some (EvAssign "device-cp-1" "147.75.0.1" None) ∧
  new.1 = None ∧
  last (trace new.2) = Some (EvAssign "device-cp-1" "147.75.0.1" None).
Proof. vm_compute. done. Qed.

(** ** Failover *)

(** C1, counterexample: the manager as constructed, the elastic IP timing
    out and every node address answering 200.  The node-side port is not
    known yet, so [reassign] stops at its port guard: no node is probed and
    no assign call is made. *)
Lemma failover_claim_fails_on_fresh_manager :
  let run := Metal.reconcileNodes Scenario.Eeager Scenario.nodes ModeSync
               (St Scenario.freshMetal []) in
  (length (resAssignments Scenario.eip) ≤ 1)%nat ∧
  last (trace run.2)
  = Some (EvDo Scenario.eipURL (inl (Err "dial tcp: i/o timeout"))) ∧
  (∀ u, u ≠ Scenario.eipURL → healthy Scenario.eagerProbe u = true) ∧
  Forall (λ ev, reassignmentCall ev = false) (trace run.2) ∧
  run.1 = Some Metal.errNodePortUnknown.
Proof.
  split; [simpl; lia|]. split; [by vm_compute|]. split.
  - intros u Hu. unfold healthy, Scenario.eagerProbe.
    by rewrite decide_False by done.
  - split; [vm_compute; repeat constructor|by vm_compute].
Qed.

(** C1, amended: the run reaches the probe of the elastic IP, the probe is
    unhealthy, the node-side port is known, and the lookups of the visited
    nodes, the instance lookup and the unassign call succeed.  The nodes
    carrying the control-plane label are [ns1 ++ node :: ns2]; no probed
    address of [ns1] is healthy, and [u] is the first healthy probed address
    of [node].  Then the trace is: the listing, the probe of the elastic IP,
    the scan of [ns1] in order, the lookup of [node], the probes of its
    addresses before [u] in order, the probe of [u], the instance lookup,
    one unassign call if the reservation had exactly one assignment, and one
    assign call of the reservation's address to [node]'s device. *)
Theorem reconcileNodes_reassigns_to_first_healthy
    E nodes mode (m : Metal.controlPlaneEndpointManager) h ipList ip r
    addressesOf probe node deviceID ns1 ns2 us1 u us2 :
  let eipURL := healthzURL (resAddress ip) (Metal.apiServerPort m) in
  let urls := candidateURLs E (Metal.nodeAPIServerPort m) eipURL in
  Metal.inProcess m = false →
  Metal.apiServerPort m ≠ 0 →
  Metal.eipTag m ≠ "" →
  ipResSvr_List E h (Metal.projectID m) = (ipList, None) →
  ipReservationByAllTags [Metal.eipTag m] ipList = Some ip →
  (length (resAssignments ip) ≤ 1)%nat →
  http_NewRequest E eipURL = None →
  httpClient_Do E (h ++ [EvList (Metal.projectID m) (ipList, None)]) eipURL = r →
  healthyProbe (EvDo eipURL r) = false →
  Metal.nodeAPIServerPort m ≠ 0 →
  (∀ h' u', u' ≠ eipURL → httpClient_Do E h' u' = probe u') →
  (∀ h' n, n ∈ ns1 ++ [node] →
     instances_NodeAddresses E h' (nodeName n) = inr (addressesOf (nodeName n))) →
  (∀ h', instances_InstanceID E h' (nodeName node) = inr deviceID) →
  (∀ h' id, deviceIPSrv_Unassign E h' id = None) →
  filter (λ n, is_Some (nodeLabels n !! controlPlaneLabel)) nodes
  = ns1 ++ node :: ns2 →
  Forall (λ n, Forall (λ u', healthy probe u' = false)
                 (urls (addressesOf (nodeName n)))) ns1 →
  urls (addressesOf (nodeName node)) = us1 ++ u :: us2 →
  Forall (λ u', healthy probe u' = false) us1 →
  healthy probe u = true →
  ∃ res,
    Metal.reconcileNodes E nodes mode (St m h)
    = (res,
       St m (h ++ [EvList (Metal.projectID m) (ipList, None); EvDo eipURL r]
               ++ flat_map (scanEvents E (Metal.nodeAPIServerPort m) eipURL
                              addressesOf probe) ns1
               ++ EvNodeAddresses (nodeName node)
                    (inr (addressesOf (nodeName node)))
                  :: (probeEvent probe <$> us1)
               ++ probeEvent probe u
                  :: EvInstanceID (nodeName node) (inr deviceID)
                  :: unassignEvents ip
               ++ [EvAssign deviceID (resAddress ip) res]
               ++ closeEvents eipURL r)).
Proof.
  intros eipURL urls Hin Hport Htag Hlist Hres Hlen Hreq Hdo Hbad Hnport
    Hprobe Haddr Hid Hun Hcp Hns1 Hsplit Hus1 Hu.
  set (mb := Metal.set_inProcess true m).
  pose proof (MetalScan.reassignNodes_found E mb eipURL addressesOf probe
                Hprobe node ip deviceID Hid Hun ns1 ns2 us1 u us2
                Haddr Hns1 Hsplit Hus1 Hu) as Hscan.
  assert (Hre : ∀ h0, ∃ res,
            Metal.reassign E (cpNodesOf nodes) ip eipURL (St mb h0)
            = (res, St mb (h0 ++ flat_map (scanEvents E (Metal.nodeAPIServerPort m)
                                             eipURL addressesOf probe) ns1
                              ++ EvNodeAddresses (nodeName node)
                                   (inr (addressesOf (nodeName node)))
                                 :: (probeEvent probe <$> us1)
                              ++ probeEvent probe u
                                 :: assignEvents node ip deviceID res))).
  { intros h0. unfold Metal.reassign. unfold mbind, M_bind, get_mgr. simpl.
    rewrite decide_False by done. rewrite cpNodesOf_filter, Hcp.
    destruct (Hscan h0) as (res & new & -> & ->). by exists res. }
  unfold Metal.reconcileNodes, Metal.reconcileNodesGuarded, Metal.afterProbe.
  unfold_run. rewrite Hin. rewrite decide_False by done. simpl.
  rewrite decide_False by done. simpl. rewrite Hlist. simpl. rewrite Hres.
  rewrite decide_False by lia. fold eipURL. rewrite Hreq.
  unfold Do, BodyClose, call, emit. simpl. rewrite Hdo. fold mb.
  destruct (Hre (h ++ [EvList (Metal.projectID m) (ipList, None)]
                   ++ [EvDo eipURL r])) as (res & Hrun).
  rewrite app_assoc in Hrun.
  exists res. unfold assignEvents in Hrun.
  destruct r as [err|resp]; simpl.
  - rewrite Hrun. simpl. unfold mb. rewrite metal_guard_roundtrip by done.
    do 2 f_equal. repeat first [rewrite <- app_assoc | progress simpl]; done.
  - simpl in Hbad. apply bool_decide_eq_false_1 in Hbad.
    rewrite decide_False by done. rewrite Hrun. unfold mb.
    destruct (hasBody resp); simpl; rewrite metal_guard_roundtrip by done;
      do 2 f_equal; repeat first [rewrite <- app_assoc | progress simpl];
      by rewrite ?app_nil_r.
Qed.

Lemma reconcileNodes_reassigns_to_first_healthy_witness :
  ∃ res t,
    Metal.reconcileNodes Scenario.E Scenario.nodes ModeSync
      (St Scenario.readyMetal [])
    = (res, St Scenario.readyMetal t) ∧
    t = [ EvList "proj" ([Scenario.otherIP; Scenario.eip], None);
          EvDo Scenario.eipURL (inl (Err "dial tcp: i/o timeout"));
          EvNodeAddresses "cp-0" (inr (Scenario.addressesOf "cp-0"));
          EvDo "https://10.0.0.1:6443/healthz" (inr Scenario.badResponse);
          EvNodeAddresses "cp-1" (inr (Scenario.addressesOf "cp-1"));
          EvDo "https://10.0.0.2:6443/healthz" (inr Scenario.okResponse);
          EvInstanceID "cp-1" (inr "device-cp-1");
          EvUnassign "asg-old" None;
          EvAssign "device-cp-1" "147.75.0.1" res ].
Proof.
  destruct (reconcileNodes_reassigns_to_first_healthy
              Scenario.E Scenario.nodes ModeSync Scenario.readyMetal []
              [Scenario.otherIP; Scenario.eip] Scenario.eip
              (inl (Err "dial tcp: i/o timeout"))
              Scenario.addressesOf Scenario.probe Scenario.cp1 "device-cp-1"
              [Scenario.cp0] [] [] "https://10.0.0.2:6443/healthz"
              ["https://147.75.1.2:6443/healthz"]) as [res Hrun].
  - reflexivity.
  - done.
  - done.
  - reflexivity.
  - by vm_compute.
  - simpl. lia.
  - reflexivity.
  - reflexivity.
  - reflexivity.
  - done.
  - intros h' u' _. reflexivity.
  - intros h' n Hn. apply list_elem_of_In in Hn. simpl in Hn.
    destruct Hn as [<-|[<-|[]]]; reflexivity.
  - intros h'. reflexivity.
  - intros h' id. reflexivity.
  - by vm_compute.
  - repeat constructor.
  - by vm_compute.
  - constructor.
  - reflexivity.
  - exists res. eexists. split; [exact Hrun|reflexivity].
Defined.

(** ** The mirrored service *)

(** C7: whenever [reconcileServices] sends an update of a service, the call
    just before it is the fetch of the stored mirrored service, and the
    object sent is the object fetched but for the load-balancer address and
    the port list: metadata (labels, annotations), status and every other
    field of the spec are those of the stored object. *)
Theorem mirrored_service_update_keeps_other_fields
    E svcs mode (m : Metal.controlPlaneEndpointManager) h res s'
    pre ns u r post :
  Metal.reconcileServices E svcs mode (St m h) = (res, s') →
  trace s' = h ++ pre ++ EvServicesUpdate ns u r :: post →
  ∃ pre' old,
    pre = pre' ++ [EvServicesGet externalServiceNamespace externalServiceName
                     (inr old)] ∧
    ns = externalServiceNamespace ∧
    svcMeta u = svcMeta old ∧ Status u = Status old ∧
    Selector (Spec u) = Selector (Spec old) ∧
    ClusterIP (Spec u) = ClusterIP (Spec old) ∧
    specType (Spec u) = specType (Spec old) ∧
    ExternalIPs (Spec u) = ExternalIPs (Spec old) ∧
    SessionAffinity (Spec u) = SessionAffinity (Spec old).
Proof.
  intros Hrun Htrace.
  apply MetalServices.reconcileServices_run in Hrun as [_ (new & Hnew & Hshape)].
  rewrite Hnew in Htrace. apply app_inv_head in Htrace.
  destruct (updateShape_update new pre post ns u r Hshape Htrace)
    as (pre' & old & Hpre & Hns & Hown).
  by exists pre', old.
Qed.

Lemma mirrored_service_update_keeps_other_fields_witness :
  let run := Metal.reconcileServices Scenario.E [Scenario.upstream] ModeSync
               (St Scenario.unsetMetal []) in
  trace run.2 !! 5%nat
  = Some (EvServicesUpdate externalServiceNamespace Scenario.updatedMirror None) ∧
  Labels (svcMeta Scenario.updatedMirror) = {[ "team" := "infra" ]} ∧
  ClusterIP (Spec Scenario.updatedMirror) = "10.96.7.7" ∧
  LoadBalancerIP (Spec Scenario.updatedMirror) = "147.75.0.1".
Proof.
  intros run.
  destruct (mirrored_service_update_keeps_other_fields
              Scenario.E [Scenario.upstream] ModeSync Scenario.unsetMetal []
              run.1 run.2 (take 5 (trace run.2)) externalServiceNamespace
              Scenario.updatedMirror None (drop 6 (trace run.2)))
    as (pre' & old & Hpre & _ & Hmeta & _ & _ & Hcluster & _).
  - apply surjective_pairing.
  - by vm_compute.
  - split; [by vm_compute|]. split; [reflexivity|]. split; reflexivity.
Defined.

(** C8: when [reconcileServices] reaches the upstream default/kubernetes
    service and its port list is not empty, the node-side port becomes the
    target value of the first port, and the desired external port becomes
    that value only if it was zero; a desired port that is not zero is
    overwritten by no call, whatever the call meets. *)
Theorem reconcileServices_adopts_ports
    E svcs mode (m : Metal.controlPlaneEndpointManager) h ipList ip svc p0 ps :
  Metal.eipTag m ≠ "" →
  ipResSvr_List E h (Metal.projectID m) = (ipList, None) →
  ipReservationByAllTags [Metal.eipTag m] ipList = Some ip →
  (length (resAssignments ip) ≤ 1)%nat →
  List.find isDefaultKubernetes svcs = Some svc →
  Ports (Spec svc) = p0 :: ps →
  let m' := mgr (Metal.reconcileServices E svcs mode (St m h)).2 in
  Metal.nodeAPIServerPort m' = IntVal (TargetPort p0) ∧
  Metal.apiServerPort m'
  = (if decide (Metal.apiServerPort m = 0) then IntVal (TargetPort p0)
     else Metal.apiServerPort m) ∧
  (Metal.apiServerPort m ≠ 0 →
   ∀ E' svcs' mode' h',
     Metal.apiServerPort
       (mgr (Metal.reconcileServices E' svcs' mode' (St m h')).2)
     = Metal.apiServerPort m).
Proof.
  intros Htag Hlist Hres Hlen Hfind Hports m'.
  assert (Hm' : m' = adoptPorts svc m).
  { subst m'. unfold Metal.reconcileServices. unfold_run.
    rewrite decide_False by done. simpl. rewrite Hlist. simpl. rewrite Hres.
    rewrite decide_False by lia.
    destruct (Metal.reconcileServicesLoop E _ mode svcs _) as [res s'] eqn:Hrun.
    apply MetalServices.reconcileServicesLoop_run in Hrun as [Hm _].
    simpl. by rewrite Hm, Hfind. }
  rewrite Hm'. unfold adoptPorts. rewrite Hports. simpl.
  split; [by destruct (decide (Metal.apiServerPort m = 0))|].
  split; [by destruct (decide (Metal.apiServerPort m = 0))|].
  intros Hne E' svcs' mode' h'.
  destruct (Metal.reconcileServices E' svcs' mode' (St m h')) as [res s'] eqn:Hrun.
  simpl.
  apply MetalServices.reconcileServices_run in Hrun as [[->|(svc' & _ & ->)] _];
    [done|].
  unfold adoptPorts. destruct (Ports (Spec svc')); [done|].
  simpl. by rewrite decide_False by done.
Qed.

Lemma reconcileServices_adopts_ports_witness :
  let m' := mgr (Metal.reconcileServices Scenario.E [Scenario.upstream] ModeSync
                   (St Scenario.unsetMetal [])).2 in
  Metal.nodeAPIServerPort m' = 6443 ∧ Metal.apiServerPort m' = 6443.
Proof.
  intros m'.
  destruct (reconcileServices_adopts_ports Scenario.E [Scenario.upstream]
              ModeSync Scenario.unsetMetal []
              [Scenario.otherIP; Scenario.eip] Scenario.eip Scenario.upstream
              {| spName := "https"; spProtocol := "TCP"; Port := 443;
                 TargetPort := {| iosType := 0; IntVal := 6443; StrVal := "" |};
                 NodePort := 0 |} [])
    as (Hnode & Hport & _).
  - done.
  - reflexivity.
  - by vm_compute.
  - simpl. lia.
  - by vm_compute.
  - reflexivity.
  - split; [exact Hnode|exact Hport].
Defined.

(** ** The guard and the rejected reservations on the scenarios *)

Lemma reconcileNodes_skips_when_in_process_witness :
  Metal.reconcileNodes Scenario.E Scenario.nodes ModeSync
    (St Scenario.busyMetal [])
  = (None, St Scenario.busyMetal []) ∧
  Packet.reconcileNodes Scenario.E Scenario.nodes false
    (St Scenario.busyPacket [])
  = (Returned None, St Scenario.busyPacket []).
Proof.
  apply (reconcileNodes_skips_when_in_process Scenario.E Scenario.nodes
           ModeSync false Scenario.busyMetal Scenario.busyPacket []);
    reflexivity.
Defined.

Lemma reconcileNodes_clears_guard_witness :
  Metal.inProcess
    (mgr (Metal.reconcileNodes Scenario.E Scenario.nodes ModeSync
            (St Scenario.readyMetal [])).2) = false ∧
  Packet.inProcess
    (mgr (Packet.reconcileNodes Scenario.E Scenario.nodes false
            (St Scenario.freshPacket [])).2) = false.
Proof.
  apply (reconcileNodes_clears_guard Scenario.E Scenario.nodes ModeSync false
           Scenario.readyMetal Scenario.freshPacket []);
    reflexivity.
Defined.

Lemma multi_assignment_rejected_witness :
  Metal.reconcileNodes Scenario.Edouble Scenario.nodes ModeSync
    (St Scenario.readyMetal [])
  = (Some (Metal.errMultiAssigned "res-2"),
     St Scenario.readyMetal
       [EvList "proj" ([Scenario.otherIP; Scenario.doubleIP], None)]) ∧
  Metal.reconcileServices Scenario.Edouble [Scenario.upstream] ModeSync
    (St Scenario.readyMetal [])
  = (Some (Metal.errMultiAssigned "res-2"),
     St Scenario.readyMetal
       [EvList "proj" ([Scenario.otherIP; Scenario.doubleIP], None)]).
Proof.
  destruct (multi_assignment_rejected Scenario.Edouble Scenario.nodes
              [Scenario.upstream] ModeSync Scenario.readyMetal []
              [Scenario.otherIP; Scenario.doubleIP] Scenario.doubleIP)
    as [Hnodes Hsvcs].
  - done.
  - reflexivity.
  - by vm_compute.
  - simpl. lia.
  - split; [apply Hnodes; done|exact Hsvcs].
Defined.

Lemma no_reservation_no_mutation_witness :
  Metal.reconcileNodes Scenario.Euntagged Scenario.nodes ModeSync
    (St Scenario.readyMetal [])
  = (None, St Scenario.readyMetal [EvList "proj" ([Scenario.otherIP], None)]) ∧
  Metal.reconcileServices Scenario.Euntagged [Scenario.upstream] ModeSync
    (St Scenario.readyMetal [])
  = (None, St Scenario.readyMetal [EvList "proj" ([Scenario.otherIP], None)]).
Proof.
  destruct (no_reservation_no_mutation Scenario.Euntagged Scenario.nodes
              [Scenario.upstream] ModeSync Scenario.readyMetal []
              [Scenario.otherIP] None)
    as [Hnodes Hsvcs].
  - done.
  - reflexivity.
  - intros r Hr. apply list_elem_of_In in Hr. simpl in Hr.
    destruct Hr as [<-|[]]. simpl. intros Hin.
    apply list_elem_of_In in Hin. simpl in Hin. by destruct Hin as [?|[]].
  - split; [apply Hnodes; done|exact Hsvcs].
Defined.

(** ** Further properties of the node reconciler *)

(** X1: when the run reaches the probe of the elastic IP and the probe is
    answered with 200, [reconcileNodes] returns nil after the listing and the
    probe; it looks at no node, calls neither unassign nor assign, releases
    the body when there is one, and leaves the manager as it was. *)
Theorem reconcileNodes_healthy_noop
    E nodes mode (m : Metal.controlPlaneEndpointManager) h ipList ip resp :
  let eipURL := healthzURL (resAddress ip) (Metal.apiServerPort m) in
  Metal.inProcess m = false →
  Metal.apiServerPort m ≠ 0 →
  Metal.eipTag m ≠ "" →
  ipResSvr_List E h (Metal.projectID m) = (ipList, None) →
  ipReservationByAllTags [Metal.eipTag m] ipList = Some ip →
  (length (resAssignments ip) ≤ 1)%nat →
  http_NewRequest E eipURL = None →
  httpClient_Do E (h ++ [EvList (Metal.projectID m) (ipList, None)]) eipURL
  = inr resp →
  StatusCode resp = StatusOK →
  Metal.reconcileNodes E nodes mode (St m h)
  = (None,
     St m (h ++ [EvList (Metal.projectID m) (ipList, None);
                 EvDo eipURL (inr resp)]
             ++ closeEvents eipURL (inr resp))).
Proof.
  intros eipURL Hin Hport Htag Hlist Hres Hlen Hreq Hdo Hok.
  unfold Metal.reconcileNodes, Metal.reconcileNodesGuarded, Metal.afterProbe.
  unfold_run. rewrite Hin. rewrite decide_False by done. simpl.
  rewrite decide_False by done. simpl. rewrite Hlist. simpl. rewrite Hres.
  rewrite decide_False by lia. fold eipURL. rewrite Hreq.
  unfold Do, BodyClose, call, emit. simpl. rewrite Hdo.
  rewrite decide_True by done. simpl.
  destruct (hasBody resp); simpl; rewrite metal_guard_roundtrip by done;
    do 2 f_equal; repeat first [rewrite <- app_assoc | progress simpl];
    by rewrite ?app_nil_r.
Qed.

Lemma reconcileNodes_healthy_noop_witness :
  Metal.reconcileNodes Scenario.Ehealthy Scenario.nodes ModeSync
    (St Scenario.readyMetal [])
  = (None,
     St Scenario.readyMetal
       [ EvList "proj" ([Scenario.otherIP; Scenario.eip], None);
         EvDo Scenario.eipURL (inr Scenario.okResponse);
         EvBodyClose Scenario.eipURL ]).
Proof.
  apply (reconcileNodes_healthy_noop Scenario.Ehealthy Scenario.nodes ModeSync
           Scenario.readyMetal [] [Scenario.otherIP; Scenario.eip]
           Scenario.eip Scenario.okResponse).
  - reflexivity.
  - done.
  - done.
  - reflexivity.
  - by vm_compute.
  - simpl. lia.
  - reflexivity.
  - reflexivity.
  - reflexivity.
Defined.

(** X2: a configuration error is returned before any call is made.  With
    the guard clear, [reconcileNodes] returns the port error when the desired
    port is zero and the tag error when the tag is empty; [reconcileServices]
    returns its tag error when the tag is empty.  Trace and manager are
    unchanged in all three cases. *)
Theorem configuration_errors_make_no_call
    E nodes svcs mode (m : Metal.controlPlaneEndpointManager) h :
  (Metal.inProcess m = false → Metal.apiServerPort m = 0 →
   Metal.reconcileNodes E nodes mode (St m h)
   = (Some Metal.errPortUnknown, St m h)) ∧
  (Metal.inProcess m = false → Metal.apiServerPort m ≠ 0 →
   Metal.eipTag m = "" →
   Metal.reconcileNodes E nodes mode (St m h)
   = (Some Metal.errEmptyTagNodes, St m h)) ∧
  (Metal.eipTag m = "" →
   Metal.reconcileServices E svcs mode (St m h)
   = (Some Metal.errEmptyTag, St m h)).
Proof.
  split; [|split].
  - intros Hin Hport. unfold Metal.reconcileNodes. unfold_run.
    rewrite Hin. by rewrite decide_True by done.
  - intros Hin Hport Htag.
    unfold Metal.reconcileNodes, Metal.reconcileNodesGuarded. unfold_run.
    rewrite Hin. rewrite decide_False by done. simpl.
    rewrite decide_True by done. simpl.
    by rewrite metal_guard_roundtrip.
  - intros Htag. unfold Metal.reconcileServices. unfold_run.
    by rewrite decide_True by done.
Qed.

Lemma configuration_errors_make_no_call_witness :
  Metal.reconcileNodes Scenario.E Scenario.nodes ModeSync
    (St Scenario.unsetMetal [])
  = (Some Metal.errPortUnknown, St Scenario.unsetMetal []) ∧
  Metal.reconcileNodes Scenario.E Scenario.nodes ModeSync
    (St Scenario.emptyMetal [])
  = (Some Metal.errEmptyTagNodes, St Scenario.emptyMetal []) ∧
  Metal.reconcileServices Scenario.E [Scenario.upstream] ModeSync
    (St Scenario.emptyMetal [])
  = (Some Metal.errEmptyTag, St Scenario.emptyMetal []).
Proof.
  destruct (configuration_errors_make_no_call Scenario.E Scenario.nodes
              [Scenario.upstream] ModeSync Scenario.unsetMetal [])
    as (Hport & _ & _).
  destruct (configuration_errors_make_no_call Scenario.E Scenario.nodes
              [Scenario.upstream] ModeSync Scenario.emptyMetal [])
    as (_ & Htag & Hsvc).
  split; [by apply Hport|]. split; [by apply Htag|by apply Hsvc].
Defined.

(** X3: an error of the reservation listing is returned as it is by both
    reconcilers, whatever the listing holds beside it; the listing is the only
    call made and the manager is unchanged. *)
Theorem listing_error_returned_verbatim
    E nodes svcs mode (m : Metal.controlPlaneEndpointManager) h ipList e :
  Metal.eipTag m ≠ "" →
  ipResSvr_List E h (Metal.projectID m) = (ipList, Some e) →
  (Metal.inProcess m = false → Metal.apiServerPort m ≠ 0 →
   Metal.reconcileNodes E nodes mode (St m h)
   = (Some e, St m (h ++ [EvList (Metal.projectID m) (ipList, Some e)]))) ∧
  Metal.reconcileServices E svcs mode (St m h)
  = (Some e, St m (h ++ [EvList (Metal.projectID m) (ipList, Some e)])).
Proof.
  intros Htag Hlist. split.
  - intros Hin Hport.
    unfold Metal.reconcileNodes, Metal.reconcileNodesGuarded. unfold_run.
    rewrite Hin. rewrite decide_False by done. simpl.
    rewrite decide_False by done. simpl. rewrite Hlist. simpl.
    by rewrite metal_guard_roundtrip.
  - unfold Metal.reconcileServices. unfold_run.
    rewrite decide_False by done. simpl. by rewrite Hlist.
Qed.

Lemma listing_error_returned_verbatim_witness :
  Metal.reconcileNodes Scenario.Elistfail Scenario.nodes ModeSync
    (St Scenario.readyMetal [])
  = (Some (Err "401 unauthorized"),
     St Scenario.readyMetal
       [EvList "proj" ([Scenario.eip], Some (Err "401 unauthorized"))]) ∧
  Metal.reconcileServices Scenario.Elistfail [Scenario.upstream] ModeSync
    (St Scenario.readyMetal [])
  = (Some (Err "401 unauthorized"),
     St Scenario.readyMetal
       [EvList "proj" ([Scenario.eip], Some (Err "401 unauthorized"))]).
Proof.
  destruct (listing_error_returned_verbatim Scenario.Elistfail Scenario.nodes
              [Scenario.upstream] ModeSync Scenario.readyMetal []
              [Scenario.eip] (Err "401 unauthorized")) as [Hnodes Hsvcs].
  - done.
  - reflexivity.
  - split; [by apply Hnodes|exact Hsvcs].
Defined.

(** ** The shape of a reassignment *)

Lemma metal_assignTo_decides E (m : Metal.controlPlaneEndpointManager) node ip :
  calls m (Metal.assignTo E node ip)
    (λ res new, assignDecision ip (nodeName node) res new).
Proof.
  unfold Metal.assignTo, InstanceID, Unassign, Assign, assignDecision,
    unassignEvents.
  calls_step. calls_step.
  destruct (instances_InstanceID E h _) as [e|dev].
  { calls_step. left. by exists e. }
  calls_step.
  destruct (resAssignments ip) as [|a [|a' l]] eqn:Easg.
  - calls_step. calls_step. calls_step.
    destruct (deviceIPSrv_Assign E _ _ _) as [e|]; calls_step;
      right; right; by exists dev.
  - calls_step. destruct (deviceIPSrv_Unassign E _ _) as [e|].
    + calls_step. right; left. by exists dev, a, e.
    + calls_step. calls_step.
      destruct (deviceIPSrv_Assign E _ _ _) as [e|]; calls_step;
        right; right; by exists dev.
  - calls_step. calls_step. calls_step.
    destruct (deviceIPSrv_Assign E _ _ _) as [e|]; calls_step;
      right; right; by exists dev.
Qed.

Lemma metal_reassignAddresses_decides
    E (m : Metal.controlPlaneEndpointManager) node ip eipURL addresses :
  calls m (Metal.reassignAddresses E node ip eipURL addresses)
    (λ o new,
       match o with
       | None => Forall (λ ev, scanOnly ev = true) new
       | Some res =>
           ∃ scan u resp tail,
             new = scan ++ EvDo u (inr resp) :: tail ∧
             Forall (λ ev, scanOnly ev = true) scan ∧
             StatusCode resp = StatusOK ∧
             assignDecision ip (nodeName node) res tail
       end).
Proof.
  assert (Hskip : ∀ (o : option (option error)) ev new,
            scanOnly ev = true →
            match o with
            | None => Forall (λ ev, scanOnly ev = true) new
            | Some res =>
                ∃ scan u resp tail,
                  new = scan ++ EvDo u (inr resp) :: tail ∧
                  Forall (λ ev, scanOnly ev = true) scan ∧
                  StatusCode resp = StatusOK ∧
                  assignDecision ip (nodeName node) res tail
            end →
            match o with
            | None => Forall (λ ev, scanOnly ev = true) (ev :: new)
            | Some res =>
                ∃ scan u resp tail,
                  ev :: new = scan ++ EvDo u (inr resp) :: tail ∧
                  Forall (λ ev, scanOnly ev = true) scan ∧
                  StatusCode resp = StatusOK ∧
                  assignDecision ip (nodeName node) res tail
            end).
  { intros [res|] ev new Hev; [|by constructor].
    intros (scan & u & resp & tail & -> & Hscan & Hok & Hdec).
    exists (ev :: scan), u, resp, tail. split; [done|].
    split; [by constructor|done]. }
  induction addresses as [|a rest IH]; simpl.
  { calls_step. constructor. }
  destruct (decide (addrType a = "Hostname")); [done|].
  calls_step. calls_step.
  destruct (decide (_ = eipURL)); [done|].
  destruct (http_NewRequest E _); [done|].
  calls_step. unfold Do. calls_step.
  destruct (httpClient_Do E h _) as [err|resp] eqn:Edo.
  - eapply calls_mono; [exact IH|]. simpl. intros o new Hnew.
    by apply Hskip.
  - destruct (decide (StatusCode resp = StatusOK)) as [H200|Hne].
    + calls_step. eapply calls_mono; [apply metal_assignTo_decides|]. simpl.
      intros res new Hdec. calls_step. rewrite app_nil_r.
      by eexists [], _, resp, new.
    + eapply calls_mono; [exact IH|]. simpl. intros o new Hnew.
      apply Hskip; [|done]. simpl. by rewrite bool_decide_eq_false_2.
Qed.

Lemma metal_reassignNodes_decides
    E (m : Metal.controlPlaneEndpointManager) ip eipURL nodes :
  calls m (Metal.reassignNodes E ip eipURL nodes)
    (λ res new, reassignShape nodes ip res new).
Proof.
  unfold reassignShape.
  induction nodes as [|node rest IH]; simpl.
  { calls_step. exists [], []. split; [done|]. split; [constructor|].
    left. by split. }
  calls_step. unfold NodeAddresses. calls_step.
  destruct (instances_NodeAddresses E h _) as [err|addresses].
  { calls_step. eexists [_], []. split; [done|].
    split; [by repeat constructor|]. left. by split. }
  calls_step.
  eapply calls_mono; [apply metal_reassignAddresses_decides|]. simpl.
  intros [res|] n1 Hn1.
  - calls_step. rewrite app_nil_r.
    destruct Hn1 as (scan & u & resp & tail & -> & Hscan & Hok & Hdec).
    eexists (_ :: scan), _. split; [done|].
    split; [by constructor|]. right.
    exists node, u, resp, tail. split; [by left|done].
  - eapply calls_mono; [exact IH|]. simpl.
    intros res n2 (scan & tail & -> & Hscan & Htail).
    eexists (_ :: n1 ++ scan), tail.
    split; [simpl; by rewrite <- app_assoc|].
    split; [constructor; [done|by apply Forall_app]|].
    destruct Htail as [Hnil|(nd & u & resp & tail' & Hnd & Hok & -> & Hdec)];
      [by left|].
    right. exists nd, u, resp, tail'. split; [by right|done].
Qed.

Lemma metal_reassign_decides
    E (m : Metal.controlPlaneEndpointManager) nodes ip eipURL :
  calls m (Metal.reassign E nodes ip eipURL)
    (λ res new, reassignShape nodes ip res new).
Proof.
  unfold Metal.reassign. calls_step. calls_step.
  destruct (decide (Metal.nodeAPIServerPort m = 0)).
  - calls_step. exists [], []. split; [done|]. split; [constructor|].
    left. by split.
  - apply metal_reassignNodes_decides.
Qed.


(** A step of the shape: nil is returned only after a successful assign. *)
Lemma reassignShape_nil nodes ip new :
  reassignShape nodes ip None new →
  ∃ pre dev, new = pre ++ [EvAssign dev (resAddress ip) None].
Proof.
  intros (scan & tail & -> & _ & [[_ [x Hx]]|Hdec]); [done|].
  destruct Hdec as (nd & u & resp & tail' & _ & _ & -> & Hdec).
  destruct Hdec as [(e & _ & ?)|[(dev & a & e & _ & _ & ?)|(dev & ->)]];
    [done|done|].
  exists (scan ++ EvDo u (inr resp) :: EvInstanceID (nodeName nd) (inr dev)
               :: unassignEvents ip), dev.
  by repeat first [rewrite <- app_assoc | progress simpl].
Qed.

(** ** What is probed and what is looked up *)

Lemma candidateURL_some E port eipURL a u :
  candidateURL E port eipURL a = Some u →
  addrType a ≠ "Hostname" ∧ u = healthzURL (addrAddress a) port ∧
  u ≠ eipURL ∧ http_NewRequest E u = None.
Proof.
  unfold candidateURL. repeat case_decide; try done.
  by intros [= <-].
Qed.

Lemma metal_assignTo_no_probe E (m : Metal.controlPlaneEndpointManager) node ip :
  calls m (Metal.assignTo E node ip)
    (λ _ new, Forall (λ ev, cloudSide ev = true ∧
                            (∀ u r, ev ≠ EvDo u r) ∧
                            ∀ name, lookedUp ev = Some name →
                                    name = nodeName node) new).
Proof.
  unfold Metal.assignTo, InstanceID, Unassign, Assign.
  calls_go; repeat constructor; simpl; try done; by intros ? [= <-].
Qed.

Lemma metal_reassignAddresses_probes
    E (m : Metal.controlPlaneEndpointManager) node ip eipURL addresses :
  calls m (Metal.reassignAddresses E node ip eipURL addresses)
    (λ _ new,
       Forall (λ ev, cloudSide ev = true ∧
                     (∀ u r, ev = EvDo u r →
                        ∃ a, a ∈ addresses ∧
                             candidateURL E (Metal.nodeAPIServerPort m) eipURL a
                             = Some u) ∧
                     (∀ name, lookedUp ev = Some name → name = nodeName node))
         new).
Proof.
  induction addresses as [|a rest IH]; simpl.
  { calls_step. constructor. }
  assert (Hrest : ∀ new,
    Forall (λ ev, cloudSide ev = true ∧
                  (∀ u r, ev = EvDo u r →
                     ∃ a', a' ∈ rest ∧
                           candidateURL E (Metal.nodeAPIServerPort m) eipURL a'
                           = Some u) ∧
                  (∀ name, lookedUp ev = Some name → name = nodeName node)) new →
    Forall (λ ev, cloudSide ev = true ∧
                  (∀ u r, ev = EvDo u r →
                     ∃ a', a' ∈ a :: rest ∧
                           candidateURL E (Metal.nodeAPIServerPort m) eipURL a'
                           = Some u) ∧
                  (∀ name, lookedUp ev = Some name → name = nodeName node)) new).
  { intros new Hnew. eapply Forall_impl; [exact Hnew|].
    intros ev (Hc & Hp & Hl).
    split; [done|]. split; [|done]. intros u r Hev.
    destruct (Hp u r Hev) as (a' & Ha' & Hcand). exists a'.
    split; [by right|done]. }
  destruct (decide (addrType a = "Hostname")) as [Hh|Hh].
  { eapply calls_mono; [exact IH|]. intros o new. apply Hrest. }
  calls_step. calls_step.
  destruct (decide (_ = eipURL)) as [Hu|Hu].
  { eapply calls_mono; [exact IH|]. intros o new. apply Hrest. }
  destruct (http_NewRequest E _) as [e|] eqn:Ereq.
  { eapply calls_mono; [exact IH|]. intros o new. apply Hrest. }
  assert (Hhere : ∀ r,
    cloudSide (EvDo (healthzURL (addrAddress a) (Metal.nodeAPIServerPort m)) r)
    = true ∧
    (∀ u r', EvDo (healthzURL (addrAddress a) (Metal.nodeAPIServerPort m)) r
             = EvDo u r' →
       ∃ a', a' ∈ a :: rest ∧
             candidateURL E (Metal.nodeAPIServerPort m) eipURL a' = Some u) ∧
    (∀ name,
       lookedUp (EvDo (healthzURL (addrAddress a) (Metal.nodeAPIServerPort m)) r)
       = Some name → name = nodeName node)).
  { intros r. split; [done|]. split; [|done].
    intros u r' [= <- <-]. exists a. split; [by left|].
    unfold candidateURL. rewrite decide_False by done. simpl.
    rewrite decide_False by done. by rewrite decide_True by done. }
  calls_step. unfold Do. calls_step.
  destruct (httpClient_Do E h _) as [err|resp].
  - eapply calls_mono; [exact IH|]. simpl. intros o new Hnew.
    constructor; [apply Hhere|by apply Hrest].
  - destruct (decide (StatusCode resp = StatusOK)).
    + calls_step. eapply calls_mono; [apply metal_assignTo_no_probe|]. simpl.
      intros res new Hnew. calls_step. rewrite app_nil_r.
      constructor; [apply Hhere|].
      eapply Forall_impl; [exact Hnew|]. simpl.
      intros ev (Hc & Hp & Hl). split; [done|]. split; [|done].
      intros u r Hev. by destruct (Hp u r).
    + eapply calls_mono; [exact IH|]. simpl. intros o new Hnew.
      constructor; [apply Hhere|by apply Hrest].
Qed.

Lemma metal_reassignNodes_probes
    E (m : Metal.controlPlaneEndpointManager) ip eipURL nodes :
  calls m (Metal.reassignNodes E ip eipURL nodes)
    (λ _ new,
       Forall (λ ev, cloudSide ev = true ∧
                     ∀ name, lookedUp ev = Some name →
                             ∃ n, n ∈ nodes ∧ nodeName n = name) new ∧
       ∀ u r, EvDo u r ∈ new →
         ∃ node addresses a,
           node ∈ nodes ∧
           EvNodeAddresses (nodeName node) (inr addresses) ∈ new ∧
           a ∈ addresses ∧
           candidateURL E (Metal.nodeAPIServerPort m) eipURL a = Some u).
Proof.
  induction nodes as [|node rest IH]; simpl.
  { calls_step. split; [constructor|]. intros u r Hin.
    by apply elem_of_nil in Hin. }
  calls_step. unfold NodeAddresses. calls_step.
  destruct (instances_NodeAddresses E h _) as [err|addresses].
  { calls_step. split.
    - repeat constructor. intros name [= <-]. exists node. split; [by left|done].
    - intros u r Hin. apply elem_of_cons in Hin as [?|Hin]; [done|].
      by apply elem_of_nil in Hin. }
  calls_step.
  eapply calls_mono; [apply metal_reassignAddresses_probes|]. simpl.
  intros o n1 Hn1.
  assert (Hfirst : Forall (λ ev, cloudSide ev = true ∧
                     ∀ name, lookedUp ev = Some name →
                             ∃ n, n ∈ node :: rest ∧ nodeName n = name)
                     (EvNodeAddresses (nodeName node) (inr addresses) :: n1)).
  { constructor.
    - split; [done|]. intros name [= <-]. exists node. split; [by left|done].
    - eapply Forall_impl; [exact Hn1|]. simpl. intros ev (Hc & _ & Hl).
      split; [done|]. intros name Hname. exists node. split; [by left|].
      symmetry. by apply Hl. }
  assert (Hprobe1 : ∀ u r tail,
            EvDo u r ∈ n1 →
            ∃ nd ads a,
              nd ∈ node :: rest ∧
              EvNodeAddresses (nodeName nd) (inr ads)
              ∈ EvNodeAddresses (nodeName node) (inr addresses) :: n1 ++ tail ∧
              a ∈ ads ∧
              candidateURL E (Metal.nodeAPIServerPort m) eipURL a = Some u).
  { intros u r tail Hin. rewrite List.Forall_forall in Hn1.
    apply list_elem_of_In, Hn1 in Hin as (_ & Hp & _).
    destruct (Hp u r eq_refl) as (a & Ha & Hcand).
    exists node, addresses, a. split; [by left|]. split; [by left|done]. }
  destruct o as [res|].
  - calls_step. rewrite app_nil_r. split; [done|].
    intros u r Hin. apply elem_of_cons in Hin as [?|Hin]; [done|].
    destruct (Hprobe1 u r [] Hin) as (nd & ads & a & ? & Hev & ? & ?).
    rewrite app_nil_r in Hev. by exists nd, ads, a.
  - eapply calls_mono; [exact IH|]. simpl. intros res n2 [Hn2 Hprobe2]. split.
    + apply Forall_cons in Hfirst as [Hev Hfirst].
      constructor; [done|]. apply Forall_app. split; [done|].
      eapply Forall_impl; [exact Hn2|]. simpl. intros ev [Hc Hl].
      split; [done|]. intros name Hname.
      destruct (Hl name Hname) as (n & Hn & Heq). exists n.
      split; [by right|done].
    + intros u r Hin. apply elem_of_cons in Hin as [?|Hin]; [done|].
      apply elem_of_app in Hin as [Hin|Hin]; [by apply (Hprobe1 u r n2)|].
      destruct (Hprobe2 u r Hin) as (nd & ads & a & Hnd & Hev & Ha & Hcand).
      exists nd, ads, a. split; [by right|]. split; [|done].
      right. apply elem_of_app. by right.
Qed.

(** X5: every probe made by [reassign] goes to an address that a lookup of
    this very call returned for a node of the list; the address is not of
    type Hostname, the URL is built from it and the node-side port, it is not
    the elastic IP's own URL, and a request could be built for it. *)
Theorem reassign_probes_only_listed_addresses
    E nodes ip eipURL (m : Metal.controlPlaneEndpointManager) h :
  ∃ new,
    trace (Metal.reassign E nodes ip eipURL (St m h)).2 = h ++ new ∧
    ∀ u r, EvDo u r ∈ new →
      ∃ node addresses a,
        node ∈ nodes ∧
        EvNodeAddresses (nodeName node) (inr addresses) ∈ new ∧
        a ∈ addresses ∧
        addrType a ≠ "Hostname" ∧
        u = healthzURL (addrAddress a) (Metal.nodeAPIServerPort m) ∧
        u ≠ eipURL ∧
        http_NewRequest E u = None.
Proof.
  unfold Metal.reassign. unfold mbind, M_bind, get_mgr. simpl.
  destruct (decide (Metal.nodeAPIServerPort m = 0)).
  - exists []. rewrite app_nil_r. split; [done|]. intros u r Hin.
    by apply elem_of_nil in Hin.
  - destruct (metal_reassignNodes_probes E m ip eipURL nodes h)
      as (res & new & -> & _ & Hprobe).
    exists new. split; [done|]. intros u r Hin.
    destruct (Hprobe u r Hin) as (nd & ads & a & Hnd & Hev & Ha & Hcand).
    apply candidateURL_some in Hcand as (? & ? & ? & ?).
    by exists nd, ads, a.
Qed.

(** X6: [reconcileNodes] talks to the cloud side only (listing, probes,
    instance lookups, unassign, assign): it makes no call to the
    orchestrator's object client.  Every node it looks up is a node of its
    input that carries the control-plane label.  The manager is returned as
    it was. *)
Theorem reconcileNodes_frame
    E nodes mode (m : Metal.controlPlaneEndpointManager) h :
  ∃ res new,
    Metal.reconcileNodes E nodes mode (St m h) = (res, St m (h ++ new)) ∧
    Forall (λ ev, cloudSide ev = true) new ∧
    ∀ ev name, ev ∈ new → lookedUp ev = Some name →
      ∃ n, n ∈ nodes ∧ nodeName n = name ∧
           is_Some (nodeLabels n !! controlPlaneLabel).
Proof.
  assert (Hnil : ∀ res : option error, ∃ res' new,
            (res, St m h) = (res', St m (h ++ new)) ∧
            Forall (λ ev, cloudSide ev = true) new ∧
            ∀ ev name, ev ∈ new → lookedUp ev = Some name →
              ∃ n, n ∈ nodes ∧ nodeName n = name ∧
                   is_Some (nodeLabels n !! controlPlaneLabel)).
  { intros res. exists res, []. rewrite app_nil_r. split; [done|].
    split; [constructor|]. intros ev name Hin. by apply elem_of_nil in Hin. }
  unfold Metal.reconcileNodes.
  unfold mbind at 1, M_bind, get_mgr. simpl.
  destruct (Metal.inProcess m) eqn:Hin; [apply Hnil|].
  destruct (decide (Metal.apiServerPort m = 0)); [apply Hnil|].
  unfold mbind, M_bind, put_mgr, get_mgr, mret, M_ret. simpl.
  set (mb := Metal.set_inProcess true m).
  assert (Hg : calls mb (Metal.reconcileNodesGuarded E nodes)
            (λ _ new,
               Forall (λ ev, cloudSide ev = true ∧
                             ∀ name, lookedUp ev = Some name →
                                     ∃ n, n ∈ cpNodesOf nodes ∧ nodeName n = name)
                 new)).
  { assert (Hre : ∀ ip url,
              calls mb (Metal.reassign E (cpNodesOf nodes) ip url)
                (λ _ new,
                   Forall (λ ev, cloudSide ev = true ∧
                                 ∀ name, lookedUp ev = Some name →
                                   ∃ n, n ∈ cpNodesOf nodes ∧ nodeName n = name)
                     new)).
    { intros ip url. unfold Metal.reassign. calls_step. calls_step.
      destruct (decide (Metal.nodeAPIServerPort mb = 0));
        [calls_step; constructor|].
      eapply calls_mono; [apply metal_reassignNodes_probes|]. simpl.
      by intros _ new [Hall _]. }
    unfold Metal.reconcileNodesGuarded, Metal.afterProbe, List_, Do, BodyClose.
    calls_step. calls_step.
    destruct (decide (Metal.eipTag mb = "")); [calls_step; constructor|].
    calls_step. calls_step.
    destruct (ipResSvr_List E h0 _) as [ipList [e|]];
      [calls_step; by repeat constructor|].
    destruct (ipReservationByAllTags _ ipList) as [cpe|];
      [|calls_step; by repeat constructor].
    destruct (decide (1 < length (resAssignments cpe))%nat);
      [calls_step; by repeat constructor|].
    cbv zeta. destruct (http_NewRequest E _);
      [calls_step; by repeat constructor|].
    calls_step. calls_step. calls_step.
    assert (Hend : ∀ (r : error + Response) url (b : bool) new,
              Forall (λ ev, cloudSide ev = true ∧
                            ∀ name, lookedUp ev = Some name →
                              ∃ n, n ∈ cpNodesOf nodes ∧ nodeName n = name) new →
              Forall (λ ev, cloudSide ev = true ∧
                            ∀ name, lookedUp ev = Some name →
                              ∃ n, n ∈ cpNodesOf nodes ∧ nodeName n = name)
                ([EvList (Metal.projectID mb) (ipList, None)]
                 ++ [EvDo url r]
                 ++ new ++ (if b then [EvBodyClose url] else []) ++ [])).
    { intros r url b new Hnew. repeat constructor; try done.
      apply Forall_app. split; [done|]. destruct b; by repeat constructor. }
    destruct (httpClient_Do E _ _) as [err|resp].
    - eapply calls_mono; [apply Hre|]. simpl. intros res new Hnew.
      calls_go. by apply (Hend _ _ false).
    - destruct (decide (StatusCode resp = StatusOK)).
      + calls_step. destruct (hasBody resp); calls_go.
        * by apply (Hend _ _ true []).
        * by apply (Hend _ _ false []).
      + eapply calls_mono; [apply Hre|]. simpl. intros res new Hnew.
        destruct (hasBody resp); calls_go.
        * by apply (Hend _ _ true).
        * by apply (Hend _ _ false). }
  destruct (Hg h) as (res & new & -> & Hnew). simpl.
  unfold mb. rewrite metal_guard_roundtrip by done.
  exists res, new. split; [done|]. split.
  - eapply Forall_impl; [exact Hnew|]. by intros ev [? _].
  - intros ev name Hev Hname. rewrite List.Forall_forall in Hnew.
    apply list_elem_of_In, Hnew in Hev as [_ Hl].
    destruct (Hl name Hname) as (nd & Hnd & Heq).
    rewrite cpNodesOf_filter in Hnd.
    apply list_elem_of_filter in Hnd as [Hlab Hnd].
    by exists nd.
Qed.

(** ** Further properties of the service mirror *)

Lemma copy_loop_id {A} (l : list A) :
  foldl (λ acc x, acc ++ [DeepCopy x]) [] l = l.
Proof.
  assert (Hgen : ∀ acc, foldl (λ acc x, acc ++ [DeepCopy x]) acc l = acc ++ l).
  { induction l as [|x l IH]; intros acc; simpl.
    - by rewrite app_nil_r.
    - rewrite IH. by rewrite <- app_assoc. }
  apply Hgen.
Qed.

Lemma metal_mirrorEndpoints_shape E (m : Metal.controlPlaneEndpointManager) svc :
  calls m (Metal.mirrorEndpoints E svc) (λ res new, endpointsShape svc res new).
Proof.
  unfold Metal.mirrorEndpoints, EndpointsGet, EndpointsUpdate, EndpointsCreate,
    endpointsShape.
  calls_step. calls_step.
  destruct (endpoints_Get E h _ _) as [e|ep].
  { calls_step. left. by exists e. }
  calls_step. calls_step. rewrite copy_loop_id.
  destruct (endpoints_Get E h0 _ _) as [e|myep] eqn:Eg.
  - calls_step. calls_step. calls_step. right.
    eexists ep, (inl e), _. by split.
  - calls_step. calls_step. calls_step. right.
    eexists ep, (inr myep), _. by split.
Qed.

Lemma metal_publishStatus_shape E (m : Metal.controlPlaneEndpointManager) eip :
  calls m (Metal.publishStatus E eip) (λ res new, statusShape eip res new).
Proof.
  unfold Metal.publishStatus, ServicesGet, ServicesUpdateStatus, statusShape.
  calls_step. calls_step.
  destruct (services_Get E h _ _) as [e|old].
  { calls_step. left. by exists e. }
  calls_step. calls_step.
  destruct (services_UpdateStatus E _ _ _) as [e|]; calls_step; right;
    eexists old, _; by split.
Qed.

Lemma metal_mirrorService_shape
    E (m : Metal.controlPlaneEndpointManager) eip existingPorts :
  calls m (Metal.mirrorService E eip existingPorts)
    (λ res new,
       serviceShape eip
         (alter (set_Port (Metal.apiServerPort m)) 0%nat existingPorts)
         res new).
Proof.
  unfold Metal.mirrorService, ServicesGet, ServicesUpdate, ServicesCreate,
    serviceShape.
  calls_step. calls_step. cbv zeta. rewrite copy_loop_id.
  calls_step. calls_step.
  destruct (services_Get E h _ _) as [e|old] eqn:Eg.
  - calls_step. calls_step. calls_step.
    destruct (services_Create E _ _ _) as [e'|] eqn:Ec; simpl; calls_step; simpl.
    + calls_step. by eexists (inl e), (Some e'), [].
    + eapply calls_mono; [apply metal_publishStatus_shape|]. simpl.
      intros res new Hnew. by eexists (inl e), None, new.
  - calls_step. calls_step. calls_step.
    destruct (services_Update E _ _ _) as [e'|] eqn:Eu; simpl; calls_step; simpl.
    + calls_step. by eexists (inr old), (Some e'), [].
    + eapply calls_mono; [apply metal_publishStatus_shape|]. simpl.
      intros res new Hnew. by eexists (inr old), None, new.
Qed.

(** The loop body on an upstream service that has ports. *)
Lemma metal_reconcileService_shape
    E (m : Metal.controlPlaneEndpointManager) svc eip p0 ps h :
  Ports (Spec svc) = p0 :: ps →
  ∃ res resE epPart rest,
    Metal.reconcileService E svc eip (St m h)
    = (res, St (adoptPorts svc m) (h ++ epPart ++ rest)) ∧
    endpointsShape svc resE epPart ∧
    match resE with
    | Some err => rest = [] ∧ res = Some err
    | None =>
        serviceShape eip
          (set_Port (Metal.apiServerPort (adoptPorts svc m)) p0 :: ps) res rest
    end.
Proof.
  intros Hports. unfold Metal.reconcileService, adoptPorts. rewrite Hports.
  cbv zeta. set (m2 := if decide _ then _ else _).
  unfold mbind at 1 2, M_bind, get_mgr, put_mgr. simpl.
  assert (Hc : calls m2
            (e ← Metal.mirrorEndpoints E svc;
             match e with
             | Some err => mret (Some err)
             | None => Metal.mirrorService E eip (p0 :: ps)
             end)
            (λ res new, ∃ resE epPart rest,
               new = epPart ++ rest ∧ endpointsShape svc resE epPart ∧
               match resE with
               | Some err => rest = [] ∧ res = Some err
               | None =>
                   serviceShape eip
                     (set_Port (Metal.apiServerPort m2) p0 :: ps) res rest
               end)).
  { calls_step. eapply calls_mono; [apply metal_mirrorEndpoints_shape|]. simpl.
    intros [err|] n1 Hn1.
    - calls_step. by exists (Some err), n1, [].
    - eapply calls_mono; [apply metal_mirrorService_shape|]. simpl.
      intros res n2 Hn2. by exists None, n1, n2. }
  destruct (Hc h) as (res & new & Hrun & resE & epPart & rest & -> & He & Hs).
  exists res, resE, epPart, rest. split; [exact Hrun|done].
Qed.

(** The loop looks at the first default/kubernetes service only. *)
Lemma metal_reconcileServicesLoop_upstream E eip mode svcs s :
  Metal.reconcileServicesLoop E eip mode svcs s
  = match List.find isDefaultKubernetes svcs with
    | Some svc => Metal.reconcileService E svc eip s
    | None => (if decide (mode = ModeSync)
               then Some Metal.errServiceNotFound else None, s)
    end.
Proof.
  induction svcs as [|svc rest IH]; simpl.
  { by destruct (decide (mode = ModeSync)). }
  unfold isDefaultKubernetes.
  destruct (decide (Namespace (svcMeta svc) = "default")) as [Hns|Hns];
    [destruct (decide (Name (svcMeta svc) = "kubernetes")) as [Hn|Hn]|].
  - rewrite !bool_decide_eq_false_2 by (by intros ?).
    by rewrite !bool_decide_eq_true_2 by done.
  - rewrite (bool_decide_eq_true_2 (Name _ ≠ _)) by done.
    rewrite (bool_decide_eq_false_2 (Name _ = _)) by done.
    rewrite orb_true_r, andb_false_r. apply IH.
  - rewrite (bool_decide_eq_true_2 (Namespace _ ≠ _)) by done.
    rewrite (bool_decide_eq_false_2 (Namespace _ = _)) by done.
    simpl. apply IH.
Qed.

Lemma find_upstreamOnly svcs :
  List.find isDefaultKubernetes (upstreamOnly svcs)
  = List.find isDefaultKubernetes svcs.
Proof.
  unfold upstreamOnly.
  destruct (List.find isDefaultKubernetes svcs) as [svc|] eqn:Hfind; [|done].
  simpl. apply find_some in Hfind as [_ ->]. done.
Qed.

(** X7: [reconcileServices] looks at the first default/kubernetes service of
    its input and at nothing else: services before it, services after it,
    and a second default/kubernetes service change neither the result, nor
    the calls, nor the manager. *)
Theorem reconcileServices_first_upstream_only E svcs mode s :
  Metal.reconcileServices E svcs mode s
  = Metal.reconcileServices E (upstreamOnly svcs) mode s.
Proof.
  unfold Metal.reconcileServices. unfold mbind, M_bind, get_mgr, List_, call.
  simpl. destruct (decide (Metal.eipTag (mgr s) = "")); [done|].
  destruct (ipResSvr_List E (trace s) _) as [ipList [e|]]; [done|].
  destruct (ipReservationByAllTags _ ipList) as [cpe|]; [|done].
  destruct (decide (1 < length (resAssignments cpe))%nat); [done|].
  rewrite !metal_reconcileServicesLoop_upstream. by rewrite find_upstreamOnly.
Qed.

(** X8: when the run reaches the loop and the input holds no
    default/kubernetes service, [reconcileServices] makes no call beside the
    listing and leaves the manager as it was; it returns the not-found error
    in the sync mode and nil in the other modes. *)
Theorem reconcileServices_without_upstream
    E svcs mode (m : Metal.controlPlaneEndpointManager) h ipList ip :
  Metal.eipTag m ≠ "" →
  ipResSvr_List E h (Metal.projectID m) = (ipList, None) →
  ipReservationByAllTags [Metal.eipTag m] ipList = Some ip →
  (length (resAssignments ip) ≤ 1)%nat →
  List.find isDefaultKubernetes svcs = None →
  Metal.reconcileServices E svcs mode (St m h)
  = (if decide (mode = ModeSync) then Some Metal.errServiceNotFound else None,
     St m (h ++ [EvList (Metal.projectID m) (ipList, None)])).
Proof.
  intros Htag Hlist Hres Hlen Hfind.
  unfold Metal.reconcileServices. unfold_run.
  rewrite decide_False by done. simpl. rewrite Hlist. simpl. rewrite Hres.
  rewrite decide_False by lia.
  by rewrite metal_reconcileServicesLoop_upstream, Hfind.
Qed.

Lemma reconcileServices_without_upstream_witness :
  Metal.reconcileServices Scenario.E [Scenario.otherService] ModeSync
    (St Scenario.readyMetal [])
  = (Some Metal.errServiceNotFound,
     St Scenario.readyMetal
       [EvList "proj" ([Scenario.otherIP; Scenario.eip], None)]) ∧
  Metal.reconcileServices Scenario.E [Scenario.otherService] ModeAdd
    (St Scenario.readyMetal [])
  = (None,
     St Scenario.readyMetal
       [EvList "proj" ([Scenario.otherIP; Scenario.eip], None)]).
Proof.
  split.
  - apply (reconcileServices_without_upstream Scenario.E
             [Scenario.otherService] ModeSync Scenario.readyMetal []
             [Scenario.otherIP; Scenario.eip] Scenario.eip);
      [done|reflexivity|by vm_compute|simpl; lia|by vm_compute].
  - apply (reconcileServices_without_upstream Scenario.E
             [Scenario.otherService] ModeAdd Scenario.readyMetal []
             [Scenario.otherIP; Scenario.eip] Scenario.eip);
      [done|reflexivity|by vm_compute|simpl; lia|by vm_compute].
Defined.

(** X9: when the upstream service has no port, [reconcileServices] returns
    the no-ports error; it makes no call beside the listing and changes
    neither port of the manager. *)
Theorem reconcileServices_portless_upstream
    E svcs mode (m : Metal.controlPlaneEndpointManager) h ipList ip svc :
  Metal.eipTag m ≠ "" →
  ipResSvr_List E h (Metal.projectID m) = (ipList, None) →
  ipReservationByAllTags [Metal.eipTag m] ipList = Some ip →
  (length (resAssignments ip) ≤ 1)%nat →
  List.find isDefaultKubernetes svcs = Some svc →
  Ports (Spec svc) = [] →
  Metal.reconcileServices E svcs mode (St m h)
  = (Some Metal.errNoPorts,
     St m (h ++ [EvList (Metal.projectID m) (ipList, None)])).
Proof.
  intros Htag Hlist Hres Hlen Hfind Hports.
  unfold Metal.reconcileServices. unfold_run.
  rewrite decide_False by done. simpl. rewrite Hlist. simpl. rewrite Hres.
  rewrite decide_False by lia.
  rewrite metal_reconcileServicesLoop_upstream, Hfind.
  unfold Metal.reconcileService. by rewrite Hports.
Qed.

Lemma reconcileServices_portless_upstream_witness :
  Metal.reconcileServices Scenario.E [Scenario.otherService; Scenario.portless]
    ModeSync (St Scenario.unsetMetal [])
  = (Some Metal.errNoPorts,
     St Scenario.unsetMetal
       [EvList "proj" ([Scenario.otherIP; Scenario.eip], None)]).
Proof.
  apply (reconcileServices_portless_upstream Scenario.E
           [Scenario.otherService; Scenario.portless] ModeSync
           Scenario.unsetMetal [] [Scenario.otherIP; Scenario.eip]
           Scenario.eip Scenario.portless);
    [done|reflexivity|by vm_compute|simpl; lia|by vm_compute|reflexivity].
Defined.

(** X10: the calls of [reconcileServices] on an upstream service that has
    ports.  After the listing come the fetch of the upstream endpoints, the
    fetch of the mirrored endpoints and their update (when found) or creation
    (when not), carrying the upstream subsets.  Only when that succeeded come
    the fetch of the mirrored service and its update or creation, carrying the
    elastic IP as load-balancer address and the upstream ports with the desired
    port in the first of them; and only when that succeeded, a second fetch
    and the status update with the elastic IP as single ingress.  A call that
    fails ends the run with its error, wrapped. *)
Theorem reconcileServices_calls
    E svcs mode (m : Metal.controlPlaneEndpointManager) h ipList ip svc p0 ps :
  Metal.eipTag m ≠ "" →
  ipResSvr_List E h (Metal.projectID m) = (ipList, None) →
  ipReservationByAllTags [Metal.eipTag m] ipList = Some ip →
  (length (resAssignments ip) ≤ 1)%nat →
  List.find isDefaultKubernetes svcs = Some svc →
  Ports (Spec svc) = p0 :: ps →
  ∃ res resE epPart rest,
    Metal.reconcileServices E svcs mode (St m h)
    = (res, St (adoptPorts svc m)
              (h ++ EvList (Metal.projectID m) (ipList, None)
                 :: epPart ++ rest)) ∧
    endpointsShape svc resE epPart ∧
    match resE with
    | Some err => rest = [] ∧ res = Some err
    | None =>
        serviceShape (resAddress ip)
          (set_Port (Metal.apiServerPort (adoptPorts svc m)) p0 :: ps) res rest
    end.
Proof.
  intros Htag Hlist Hres Hlen Hfind Hports.
  unfold Metal.reconcileServices. unfold_run.
  rewrite decide_False by done. simpl. rewrite Hlist. simpl. rewrite Hres.
  rewrite decide_False by lia.
  rewrite metal_reconcileServicesLoop_upstream, Hfind.
  destruct (metal_reconcileService_shape E m svc (resAddress ip) p0 ps
              (h ++ [EvList (Metal.projectID m) (ipList, None)]) Hports)
    as (res & resE & epPart & rest & Hrun & He & Hs).
  exists res, resE, epPart, rest. split; [|done].
  rewrite Hrun. by rewrite <- app_assoc.
Qed.

Lemma reconcileServices_calls_witness :
  ∃ res resE epPart rest,
    Metal.reconcileServices Scenario.Enomirror
      [Scenario.otherService; Scenario.upstream] ModeSync
      (St Scenario.unsetMetal [])
    = (res, St (adoptPorts Scenario.upstream Scenario.unsetMetal)
              ([] ++ EvList "proj" ([Scenario.otherIP; Scenario.eip], None)
                  :: epPart ++ rest)) ∧
    endpointsShape Scenario.upstream resE epPart ∧
    match resE with
    | Some err => rest = [] ∧ res = Some err
    | None =>
        serviceShape "147.75.0.1"
          (set_Port 6443
             {| spName := "https"; spProtocol := "TCP"; Port := 443;
                TargetPort := {| iosType := 0; IntVal := 6443; StrVal := "" |};
                NodePort := 0 |} :: []) res rest
    end.
Proof.
  apply (reconcileServices_calls Scenario.Enomirror
           [Scenario.otherService; Scenario.upstream] ModeSync
           Scenario.unsetMetal [] [Scenario.otherIP; Scenario.eip]
           Scenario.eip Scenario.upstream);
    [done|reflexivity|by vm_compute|simpl; lia|by vm_compute|reflexivity].
Defined.

Lemma endpointsShape_orchestrator svc res new :
  endpointsShape svc res new → Forall (λ ev, orchestratorSide ev = true) new.
Proof.
  intros [(e & -> & _)|(ep & g & r & -> & _)]; repeat constructor.
  by destruct g.
Qed.

Lemma serviceShape_orchestrator eip ports res new :
  serviceShape eip ports res new → Forall (λ ev, orchestratorSide ev = true) new.
Proof.
  intros (g & r & rest & -> & Hr).
  constructor; [done|]. constructor; [by destruct g|].
  destruct r as [e|]; [by destruct Hr as [-> _]|].
  destruct Hr as [(e & -> & _)|(old & r & -> & _)]; by repeat constructor.
Qed.

Lemma adoptPorts_frame svc (m : Metal.controlPlaneEndpointManager) :
  Metal.inProcess (adoptPorts svc m) = Metal.inProcess m ∧
  Metal.eipTag (adoptPorts svc m) = Metal.eipTag m ∧
  Metal.projectID (adoptPorts svc m) = Metal.projectID m.
Proof.
  unfold adoptPorts. destruct (Ports (Spec svc)); [done|].
  simpl. by destruct (decide (Metal.apiServerPort m = 0)).
Qed.

(** X11: [reconcileServices] makes no probe, no instance lookup and no
    unassign or assign call: beside the listing it talks to the
    orchestrator's object client only.  Of the manager it changes nothing
    but the two ports: guard flag, tag and project are as before. *)
Theorem reconcileServices_frame
    E svcs mode (m : Metal.controlPlaneEndpointManager) h :
  ∃ res m' new,
    Metal.reconcileServices E svcs mode (St m h) = (res, St m' (h ++ new)) ∧
    Forall (λ ev, orchestratorSide ev = true) new ∧
    Metal.inProcess m' = Metal.inProcess m ∧
    Metal.eipTag m' = Metal.eipTag m ∧
    Metal.projectID m' = Metal.projectID m.
Proof.
  unfold Metal.reconcileServices. unfold_run.
  destruct (decide (Metal.eipTag m = "")).
  { eexists _, m, []. rewrite app_nil_r. by repeat split. }
  simpl.
  destruct (ipResSvr_List E h (Metal.projectID m)) as [ipList [e|]] eqn:El; simpl.
  { eexists _, m, [_]. by repeat constructor. }
  destruct (ipReservationByAllTags _ ipList) as [cpe|].
  2:{ eexists _, m, [_]. by repeat constructor. }
  destruct (decide (1 < length (resAssignments cpe))%nat).
  { eexists _, m, [_]. by repeat constructor. }
  rewrite metal_reconcileServicesLoop_upstream.
  destruct (List.find isDefaultKubernetes svcs) as [svc|].
  2:{ eexists _, m, [_]. by repeat constructor. }
  destruct (Ports (Spec svc)) as [|p0 ps] eqn:Hports.
  { unfold Metal.reconcileService. rewrite Hports.
    eexists _, m, [_]. by repeat constructor. }
  destruct (metal_reconcileService_shape E m svc (resAddress cpe) p0 ps
              (h ++ [EvList (Metal.projectID m) (ipList, None)]) Hports)
    as (res & resE & epPart & rest & Hrun & He & Hs).
  rewrite Hrun.
  exists res, (adoptPorts svc m),
    (EvList (Metal.projectID m) (ipList, None) :: epPart ++ rest).
  split; [by rewrite <- app_assoc|]. split; [|apply adoptPorts_frame].
  constructor; [done|]. apply Forall_app. split.
  - by eapply endpointsShape_orchestrator.
  - destruct resE as [err|]; [by destruct Hs as [-> _]|].
    by eapply serviceShape_orchestrator.
Qed.

(** ** The older service reconciler *)

Lemma packet_reconcileServicesLoop_upstream E eip svcs s :
  Packet.reconcileServicesLoop E eip svcs s
  = match List.find isDefaultKubernetes svcs with
    | Some svc => Packet.reconcileServicesLoop E eip [svc] s
    | None => (Some Packet.errServiceNotFound, s)
    end.
Proof.
  induction svcs as [|svc rest IH]; [done|].
  cbn [List.find]. destruct (isDefaultKubernetes svc) eqn:Hsvc.
  - cbn [Packet.reconcileServicesLoop]. unfold isDefaultKubernetes in Hsvc.
    apply andb_true_iff in Hsvc as [Hns Hn].
    apply bool_decide_eq_true_1 in Hns. apply bool_decide_eq_true_1 in Hn.
    by rewrite !bool_decide_eq_false_2 by (by intros ?).
  - rewrite <- IH. cbn [Packet.reconcileServicesLoop].
    unfold isDefaultKubernetes in Hsvc.
    apply andb_false_iff in Hsvc as [Hns|Hn].
    + apply bool_decide_eq_false_1 in Hns.
      by rewrite (bool_decide_eq_true_2 (Namespace _ ≠ _)) by done.
    + apply bool_decide_eq_false_1 in Hn.
      rewrite (bool_decide_eq_true_2 (Name _ ≠ _)) by done.
      by rewrite orb_true_r.
Qed.

Lemma announced_spec eip (ips : list string) :
  existsb (λ ip, bool_decide (ip = eip)) ips = true ↔ eip ∈ ips.
Proof.
  rewrite existsb_exists. split.
  - intros (ip & Hin & Heq). apply bool_decide_eq_true_1 in Heq as ->.
    by apply list_elem_of_In.
  - intros Hin. exists eip. split; [by apply list_elem_of_In|].
    by apply bool_decide_eq_true_2.
Qed.

(** The older loop on the upstream service alone. *)
Lemma packet_reconcileServicesLoop_one E eip svcs svc s :
  List.find isDefaultKubernetes svcs = Some svc →
  Packet.reconcileServicesLoop E eip svcs s
  = (if existsb (λ ip, bool_decide (ip = eip)) (ExternalIPs (Spec svc))
     then mret None
     else
       g ← ServicesGet E (Namespace (svcMeta svc)) (Name (svcMeta svc));
       match g with
       | inl err =>
           mret (Some (Err ("failed to get latest for service "
                            +:+ Name (svcMeta svc) +:+ ": " +:+ errMsg err)))
       | inr existing =>
           ServicesUpdate E (Namespace (svcMeta svc))
             (set_Spec (set_ExternalIPs (ExternalIPs (Spec svc) ++ [eip])
                          (Spec existing)) existing)
       end) s.
Proof.
  intros Hfind. rewrite packet_reconcileServicesLoop_upstream, Hfind.
  apply find_some in Hfind as [_ Hsvc]. unfold isDefaultKubernetes in Hsvc.
  apply andb_true_iff in Hsvc as [Hns Hn].
  apply bool_decide_eq_true_1 in Hns. apply bool_decide_eq_true_1 in Hn.
  cbn [Packet.reconcileServicesLoop].
  by rewrite !bool_decide_eq_false_2 by (by intros ?).
Qed.

(** X12: the older [reconcileServices], when the upstream service lists the
    elastic IP among its external IPs already: it returns nil, makes no call
    to the orchestrator and leaves the manager as it was. *)
Theorem packet_reconcileServices_already_announced
    E svcs remove (m : Packet.controlPlaneEndpointManager) h ipList ip svc :
  Packet.eipTag m ≠ "" →
  ipResSvr_List E h (Packet.projectID m) = (ipList, None) →
  ipReservationByTags [Packet.eipTag m] ipList = Some ip →
  (length (resAssignments ip) ≤ 1)%nat →
  List.find isDefaultKubernetes svcs = Some svc →
  resAddress ip ∈ ExternalIPs (Spec svc) →
  Packet.reconcileServices E svcs remove (St m h)
  = (None, St m (h ++ [EvList (Packet.projectID m) (ipList, None)])).
Proof.
  intros Htag Hlist Hres Hlen Hfind Hin.
  unfold Packet.reconcileServices. unfold_run.
  rewrite decide_False by done. simpl. rewrite Hlist. simpl. rewrite Hres.
  rewrite decide_False by lia.
  rewrite (packet_reconcileServicesLoop_one _ _ _ svc) by done.
  apply announced_spec in Hin. by rewrite Hin.
Qed.

Lemma packet_reconcileServices_already_announced_witness :
  Packet.reconcileServices Scenario.E
    [Scenario.otherService; Scenario.announced] false
    (St Scenario.freshPacket [])
  = (None,
     St Scenario.freshPacket
       [EvList "proj" ([Scenario.otherIP; Scenario.eip], None)]).
Proof.
  apply (packet_reconcileServices_already_announced Scenario.E
           [Scenario.otherService; Scenario.announced] false
           Scenario.freshPacket [] [Scenario.otherIP; Scenario.eip]
           Scenario.eip Scenario.announced).
  - done.
  - reflexivity.
  - by vm_compute.
  - simpl. lia.
  - by vm_compute.
  - apply list_elem_of_In. simpl. auto.
Defined.

(** X13: the older [reconcileServices], when the upstream service does not
    list the elastic IP: it fetches the stored service and, if the fetch
    succeeds, sends one update of the fetched object in which only the
    external IPs are replaced, by the external IPs of the service it was
    called with followed by the elastic IP; the answer of the update is
    returned as it is.  If the fetch fails, the error is returned wrapped and
    no update is sent. *)
Theorem packet_reconcileServices_announces
    E svcs remove (m : Packet.controlPlaneEndpointManager) h ipList ip svc :
  Packet.eipTag m ≠ "" →
  ipResSvr_List E h (Packet.projectID m) = (ipList, None) →
  ipReservationByTags [Packet.eipTag m] ipList = Some ip →
  (length (resAssignments ip) ≤ 1)%nat →
  List.find isDefaultKubernetes svcs = Some svc →
  resAddress ip ∉ ExternalIPs (Spec svc) →
  let ns := Namespace (svcMeta svc) in
  let name := Name (svcMeta svc) in
  let h1 := h ++ [EvList (Packet.projectID m) (ipList, None)] in
  Packet.reconcileServices E svcs remove (St m h)
  = match services_Get E h1 ns name with
    | inl err =>
        (Some (Err ("failed to get latest for service " +:+ name +:+ ": "
                    +:+ errMsg err)),
         St m (h1 ++ [EvServicesGet ns name (inl err)]))
    | inr existing =>
        let sent :=
          set_Spec (set_ExternalIPs (ExternalIPs (Spec svc) ++ [resAddress ip])
                      (Spec existing)) existing in
        let r :=
          services_Update E (h1 ++ [EvServicesGet ns name (inr existing)])
            ns sent in
        (r, St m (h1 ++ [EvServicesGet ns name (inr existing);
                         EvServicesUpdate ns sent r]))
    end.
Proof.
  intros Htag Hlist Hres Hlen Hfind Hin ns name h1.
  unfold Packet.reconcileServices. unfold_run.
  rewrite decide_False by done. simpl. rewrite Hlist. simpl. rewrite Hres.
  rewrite decide_False by lia.
  rewrite (packet_reconcileServicesLoop_one _ _ _ svc) by done.
  destruct (existsb _ _) eqn:Hex; [by apply announced_spec in Hex|].
  unfold ServicesGet, ServicesUpdate. unfold_run. fold ns name h1.
  destruct (services_Get E h1 ns name) as [err|existing]; simpl; [done|].
  by rewrite <- app_assoc.
Qed.

Lemma packet_reconcileServices_announces_witness :
  Packet.reconcileServices Scenario.E
    [Scenario.otherService; Scenario.upstream] false
    (St Scenario.freshPacket [])
  = (None,
     St Scenario.freshPacket
       [ EvList "proj" ([Scenario.otherIP; Scenario.eip], None);
         EvServicesGet "default" "kubernetes" (inr Scenario.storedMirror);
         EvServicesUpdate "default"
           (set_Spec (set_ExternalIPs ["147.75.0.1"]
                        (Spec Scenario.storedMirror)) Scenario.storedMirror)
           None ]).
Proof.
  apply (packet_reconcileServices_announces Scenario.E
           [Scenario.otherService; Scenario.upstream] false
           Scenario.freshPacket [] [Scenario.otherIP; Scenario.eip]
           Scenario.eip Scenario.upstream).
  - done.
  - reflexivity.
  - by vm_compute.
  - simpl. lia.
  - by vm_compute.
  - simpl. intros Hin. by apply elem_of_nil in Hin.
Defined.

(** X14: the older [reconcileServices], when the input holds no
    default/kubernetes service: it returns the not-found error whatever the
    [remove] flag says, after the listing alone. *)
Theorem packet_reconcileServices_without_upstream
    E svcs remove (m : Packet.controlPlaneEndpointManager) h ipList ip :
  Packet.eipTag m ≠ "" →
  ipResSvr_List E h (Packet.projectID m) = (ipList, None) →
  ipReservationByTags [Packet.eipTag m] ipList = Some ip →
  (length (resAssignments ip) ≤ 1)%nat →
  List.find isDefaultKubernetes svcs = None →
  Packet.reconcileServices E svcs remove (St m h)
  = (Some Packet.errServiceNotFound,
     St m (h ++ [EvList (Packet.projectID m) (ipList, None)])).
Proof.
  intros Htag Hlist Hres Hlen Hfind.
  unfold Packet.reconcileServices. unfold_run.
  rewrite decide_False by done. simpl. rewrite Hlist. simpl. rewrite Hres.
  rewrite decide_False by lia.
  by rewrite packet_reconcileServicesLoop_upstream, Hfind.
Qed.

Lemma packet_reconcileServices_without_upstream_witness :
  Packet.reconcileServices Scenario.E [Scenario.otherService] true
    (St Scenario.freshPacket [])
  = (Some Packet.errServiceNotFound,
     St Scenario.freshPacket
       [EvList "proj" ([Scenario.otherIP; Scenario.eip], None)]).
Proof.
  apply (packet_reconcileServices_without_upstream Scenario.E
           [Scenario.otherService] true Scenario.freshPacket []
           [Scenario.otherIP; Scenario.eip] Scenario.eip);
    [done|reflexivity|by vm_compute|simpl; lia|by vm_compute].
Defined.

(** ** When the older node reconciler panics *)

Lemma packet_assignTo_nil E (m : Packet.controlPlaneEndpointManager) node ip :
  calls m (Packet.assignTo E node ip)
    (λ res new, res = None →
                ∃ pre dev, new = pre ++ [EvAssign dev (resAddress ip) None]).
Proof.
  unfold Packet.assignTo, InstanceID, Unassign, Assign.
  calls_step. calls_step.
  destruct (instances_InstanceID E h _) as [e|dev]; [by calls_step|].
  calls_step.
  destruct (resAssignments ip) as [|a [|a' l]].
  - calls_step. calls_step. calls_step.
    destruct (deviceIPSrv_Assign E _ _ _) as [e|]; calls_step; [done|].
    intros _. by eexists [_], dev.
  - calls_step. destruct (deviceIPSrv_Unassign E _ _) as [e|]; [by calls_step|].
    calls_step. calls_step.
    destruct (deviceIPSrv_Assign E _ _ _) as [e|]; calls_step; [done|].
    intros _. by eexists [_; _], dev.
  - calls_step. calls_step. calls_step.
    destruct (deviceIPSrv_Assign E _ _ _) as [e|]; calls_step; [done|].
    intros _. by eexists [_], dev.
Qed.

Lemma packet_reassignAddresses_nil
    E (m : Packet.controlPlaneEndpointManager) node ip addresses :
  calls m (Packet.reassignAddresses E node ip addresses)
    (λ o new, o = Some None →
              ∃ pre dev, new = pre ++ [EvAssign dev (resAddress ip) None]).
Proof.
  assert (Hskip : ∀ (o : option (option error)) ev new,
            (o = Some None →
             ∃ pre dev, new = pre ++ [EvAssign dev (resAddress ip) None]) →
            o = Some None →
            ∃ pre dev, ev :: new = pre ++ [EvAssign dev (resAddress ip) None]).
  { intros o ev new Hnew Ho. destruct (Hnew Ho) as (pre & dev & ->).
    by exists (ev :: pre), dev. }
  induction addresses as [|a rest IH]; simpl.
  { by calls_step. }
  destruct (decide (addrType a = "Hostname")); [done|].
  calls_step. calls_step.
  destruct (http_NewRequest E _); [done|].
  calls_step. unfold Do. calls_step.
  destruct (httpClient_Do E h _) as [err|resp].
  - eapply calls_mono; [exact IH|]. simpl. intros o new. apply Hskip.
  - destruct (decide (StatusCode resp = StatusOK)).
    + calls_step. eapply calls_mono; [apply packet_assignTo_nil|]. simpl.
      intros res new Hnew. calls_step. rewrite app_nil_r.
      intros [= ->]. destruct (Hnew eq_refl) as (pre & dev & ->).
      by eexists (_ :: pre), dev.
    + eapply calls_mono; [exact IH|]. simpl. intros o new. apply Hskip.
Qed.

(** The older [reassign] returns nil only after an assign call that
    succeeded, which is its last call. *)
Lemma packet_reassign_nil E (m : Packet.controlPlaneEndpointManager) nodes ip :
  calls m (Packet.reassign E nodes ip)
    (λ res new, res = None →
                ∃ pre dev, new = pre ++ [EvAssign dev (resAddress ip) None]).
Proof.
  induction nodes as [|node rest IH]; simpl.
  { by calls_step. }
  calls_step. unfold NodeAddresses. calls_step.
  destruct (instances_NodeAddresses E h _) as [err|addresses];
    [by calls_step|].
  calls_step.
  eapply calls_mono; [apply packet_reassignAddresses_nil|]. simpl.
  intros [res|] n1 Hn1.
  - calls_step. rewrite app_nil_r. intros ->.
    destruct (Hn1 eq_refl) as (pre & dev & ->). by eexists (_ :: pre), dev.
  - eapply calls_mono; [exact IH|]. simpl. intros res n2 Hn2 Hres.
    destruct (Hn2 Hres) as (pre & dev & ->).
    eexists (_ :: n1 ++ pre), dev. simpl. by rewrite <- app_assoc.
Qed.

(** X15: with an HTTP client whose responses always carry a body, the older
    [reconcileNodes] panics in one situation only: the probe of the elastic
    IP failed in transport and the reassignment that followed succeeded.  By
    then the address has been reassigned: the last call before the panic is
    an assign call of the reservation's address that returned no error. *)
Theorem packet_panic_only_after_reassignment
    E nodes remove (m : Packet.controlPlaneEndpointManager) h why :
  (∀ h' u resp, httpClient_Do E h' u = inr resp → hasBody resp = true) →
  (Packet.reconcileNodes E nodes remove (St m h)).1 = Panicked why →
  ∃ ipList ip err pre dev,
    ipReservationByTags [Packet.eipTag m] ipList = Some ip ∧
    trace (Packet.reconcileNodes E nodes remove (St m h)).2
    = h ++ EvList (Packet.projectID m) (ipList, None)
        :: EvDo (healthzURL (resAddress ip) (Packet.apiServerPort m)) (inl err)
        :: pre ++ [EvAssign dev (resAddress ip) None].
Proof.
  intros Hbody.
  unfold Packet.reconcileNodes, Packet.reconcileNodesGuarded, Packet.afterProbe.
  unfold_run. destruct (Packet.inProcess m); [done|]. simpl.
  destruct (decide (Packet.eipTag m = "")); [done|]. simpl.
  destruct (ipResSvr_List E h (Packet.projectID m)) as [ipList [e|]] eqn:El;
    simpl; [done|].
  destruct (ipReservationByTags _ ipList) as [ip|] eqn:Hres; [|done].
  destruct (decide (1 < length (resAssignments ip))%nat); [done|].
  destruct (http_NewRequest E _); [done|].
  unfold Do, BodyClose, call, emit. simpl.
  set (mb := Packet.set_inProcess true m).
  set (h1 := h ++ [EvList (Packet.projectID m) (ipList, None)]).
  set (url := healthzURL (resAddress ip) (Packet.apiServerPort m)).
  destruct (httpClient_Do E h1 url) as [err|resp] eqn:Edo.
  - destruct (packet_reassign_nil E mb (cpNodesOf nodes) ip
                (h1 ++ [EvDo url (inl err)]))
      as (res & new & -> & Hnil).
    destruct res as [e|]; simpl; [done|]. intros _.
    destruct (Hnil eq_refl) as (pre & dev & ->).
    exists ipList, ip, err, pre, dev. split; [done|].
    unfold h1. by repeat first [rewrite <- app_assoc | progress simpl].
  - pose proof (Hbody _ _ _ Edo) as Hb.
    destruct (decide (StatusCode resp = StatusOK)); simpl.
    + by rewrite Hb.
    + destruct (packet_reassign_nil E mb (cpNodesOf nodes) ip
                  (h1 ++ [EvDo url (inr resp)]))
        as (res & new & -> & _).
      destruct res as [e|]; simpl; [done|]. by rewrite Hb.
Qed.

Lemma packet_panic_only_after_reassignment_witness :
  ∃ ipList ip err pre dev,
    ipReservationByTags ["cp"] ipList = Some ip ∧
    trace (Packet.reconcileNodes Scenario.E Scenario.nodes false
             (St Scenario.freshPacket [])).2
    = [] ++ EvList "proj" (ipList, None)
         :: EvDo (healthzURL (resAddress ip) 6443) (inl err)
         :: pre ++ [EvAssign dev (resAddress ip) None].
Proof.
  apply (packet_panic_only_after_reassignment Scenario.E Scenario.nodes false
           Scenario.freshPacket [] Packet.nilDereference).
  - intros h' u resp. simpl. unfold Scenario.probe.
    repeat case_decide; by intros [= <-].
  - by vm_compute.
Defined.

(** ** What a nil return of the node reconciler means *)

(** X16: [reconcileNodes] returns nil in four situations only: it was
    skipped because the guard flag was set; no reservation carries the tag;
    the probe of the elastic IP was answered with 200; or the probe was
    unhealthy and the reassignment ended with an assign call that returned
    no error.  A failed failover is never hidden behind a nil. *)
Theorem reconcileNodes_nil_means
    E nodes mode (m : Metal.controlPlaneEndpointManager) h s' :
  Metal.reconcileNodes E nodes mode (St m h) = (None, s') →
  ∃ new,
    s' = St m (h ++ new) ∧
    ((Metal.inProcess m = true ∧ new = []) ∨
     (∃ ipList,
        ipReservationByAllTags [Metal.eipTag m] ipList = None ∧
        new = [EvList (Metal.projectID m) (ipList, None)]) ∨
     (∃ l u resp,
        StatusCode resp = StatusOK ∧
        new = EvList (Metal.projectID m) l :: EvDo u (inr resp)
              :: closeEvents u (inr resp)) ∨
     (∃ l u r pre dev address,
        healthyProbe (EvDo u r) = false ∧
        new = EvList (Metal.projectID m) l :: EvDo u r
              :: pre ++ EvAssign dev address None :: closeEvents u r)).
Proof.
  unfold Metal.reconcileNodes, Metal.reconcileNodesGuarded, Metal.afterProbe.
  unfold_run. destruct (Metal.inProcess m) eqn:Hin.
  { intros [= <-]. exists []. rewrite app_nil_r. split; [done|]. by left. }
  destruct (decide (Metal.apiServerPort m = 0)); [done|]. simpl.
  destruct (decide (Metal.eipTag m = "")); [done|]. simpl.
  destruct (ipResSvr_List E h (Metal.projectID m)) as [ipList [e|]] eqn:El;
    simpl; [done|].
  destruct (ipReservationByAllTags _ ipList) as [ip|] eqn:Hres.
  2:{ simpl. rewrite metal_guard_roundtrip by done. intros [= <-].
      eexists. split; [done|]. right; left. by exists ipList. }
  destruct (decide (1 < length (resAssignments ip))%nat); [done|].
  destruct (http_NewRequest E _); [done|].
  unfold Do, BodyClose, call, emit. simpl.
  set (mb := Metal.set_inProcess true m).
  set (h1 := h ++ [EvList (Metal.projectID m) (ipList, None)]).
  set (url := healthzURL (resAddress ip) (Metal.apiServerPort m)).
  assert (Hmb : Metal.set_inProcess false mb = m)
    by (by apply metal_guard_roundtrip).
  assert (Hfail : ∀ r b,
            healthyProbe (EvDo url r) = false →
            (let (a, s1) := Metal.reassign E (cpNodesOf nodes) ip url
                              (St mb (h1 ++ [EvDo url r])) in
             (a, St (Metal.set_inProcess false (mgr s1))
                   (trace s1 ++ (if b : bool then [EvBodyClose url] else []))))
            = (None, s') →
            ∃ new, s' = St m (h ++ new) ∧
              ∃ l u r' pre dev address,
                healthyProbe (EvDo u r') = false ∧
                new = EvList (Metal.projectID m) l :: EvDo u r'
                      :: pre ++ EvAssign dev address None
                      :: (if b then [EvBodyClose url] else []) ∧
                u = url ∧ r' = r).
  { intros r b Hbad.
    destruct (metal_reassign_decides E mb (cpNodesOf nodes) ip url
                (h1 ++ [EvDo url r])) as (res & new & -> & Hshape).
    simpl. rewrite Hmb. intros [= -> <-].
    apply reassignShape_nil in Hshape as (pre & dev & ->).
    eexists. split.
    - unfold h1. by repeat first [rewrite <- app_assoc | progress simpl].
    - by exists (ipList, None), url, r, pre, dev, (resAddress ip). }
  destruct (httpClient_Do E h1 url) as [err|resp] eqn:Edo.
  - intros Hrun.
    assert (Hrun' :
      (let (a, s1) := Metal.reassign E (cpNodesOf nodes) ip url
                        (St mb (h1 ++ [EvDo url (inl err)])) in
       (a, St (Metal.set_inProcess false (mgr s1)) (trace s1 ++ [])))
      = (None, s')).
    { destruct (Metal.reassign E _ _ _ _) as [a s1]. simpl in *.
      by rewrite app_nil_r. }
    destruct (Hfail (inl err) false eq_refl Hrun')
      as (new & -> & l & u & r' & pre & dev & addr & Hb & -> & -> & ->).
    eexists. split; [done|]. right; right; right.
    by exists l, url, (inl err), pre, dev, addr.
  - destruct (decide (StatusCode resp = StatusOK)) as [Hok|Hne]; simpl.
    + destruct (hasBody resp) eqn:Hb; simpl; rewrite Hmb; intros [= <-];
        eexists;
        (split;
         [unfold h1; by repeat first [rewrite <- app_assoc | progress simpl]|]);
        right; right; left; exists (ipList, None), url, resp;
        (split; [done|]); simpl; by rewrite Hb.
    + intros Hrun.
      assert (Hbad : healthyProbe (EvDo url (inr resp)) = false)
        by (simpl; by rewrite bool_decide_eq_false_2).
      assert (Hrun' :
        (let (a, s1) := Metal.reassign E (cpNodesOf nodes) ip url
                          (St mb (h1 ++ [EvDo url (inr resp)])) in
         (a, St (Metal.set_inProcess false (mgr s1))
               (trace s1 ++ (if hasBody resp then [EvBodyClose url] else []))))
        = (None, s')).
      { destruct (Metal.reassign E _ _ _ _) as [a s1]. simpl in *.
        destruct (hasBody resp); simpl in *; [done|]. by rewrite app_nil_r. }
      destruct (Hfail (inr resp) (hasBody resp) Hbad Hrun')
        as (new & -> & l & u & r' & pre & dev & addr & Hb & -> & -> & ->).
      eexists. split; [done|]. right; right; right.
      exists l, url, (inr resp), pre, dev, addr. split; [done|]. simpl.
      by destruct (hasBody resp).
Qed.

Lemma reconcileNodes_nil_means_witness :
  ∃ new,
    St Scenario.readyMetal
      (trace (Metal.reconcileNodes Scenario.E Scenario.nodes ModeSync
                (St Scenario.readyMetal [])).2)
    = St Scenario.readyMetal ([] ++ new) ∧
    ((Metal.inProcess Scenario.readyMetal = true ∧ new = []) ∨
     (∃ ipList,
        ipReservationByAllTags [Metal.eipTag Scenario.readyMetal] ipList = None ∧
        new = [EvList "proj" (ipList, None)]) ∨
     (∃ l u resp,
        StatusCode resp = StatusOK ∧
        new = EvList "proj" l :: EvDo u (inr resp) :: closeEvents u (inr resp)) ∨
     (∃ l u r pre dev address,
        healthyProbe (EvDo u r) = false ∧
        new = EvList "proj" l :: EvDo u r
              :: pre ++ EvAssign dev address None :: closeEvents u r)).
Proof.
  apply (reconcileNodes_nil_means Scenario.E Scenario.nodes ModeSync
           Scenario.readyMetal []).
  by vm_compute.
Defined.

(** ** The two reconcilers together *)

Lemma metal_reconcileNodesGuarded_lists E (m : Metal.controlPlaneEndpointManager) nodes :
  Metal.eipTag m ≠ "" →
  calls m (Metal.reconcileNodesGuarded E nodes)
    (λ _ new, ∃ l rest, new = EvList (Metal.projectID m) l :: rest).
Proof.
  intros Htag.
  unfold Metal.reconcileNodesGuarded, Metal.afterProbe, List_, Do, BodyClose.
  calls_step. calls_step. rewrite decide_False by done.
  calls_step. calls_step.
  destruct (ipResSvr_List E h _) as [ipList [e|]];
    [calls_step; by eexists _, _|].
  destruct (ipReservationByAllTags _ ipList) as [cpe|];
    [|calls_step; by eexists _, _].
  destruct (decide (1 < length (resAssignments cpe))%nat);
    [calls_step; by eexists _, _|].
  cbv zeta. destruct (http_NewRequest E _); [calls_step; by eexists _, _|].
  calls_step. calls_step. calls_step.
  destruct (httpClient_Do E _ _) as [err|resp].
  - eapply calls_mono; [apply MetalFacts.metal_reassign_calls|]. simpl.
    intros res new _. calls_go. by eexists _, _.
  - destruct (decide (StatusCode resp = StatusOK)).
    + calls_step. destruct (hasBody resp); calls_go; by eexists _, _.
    + eapply calls_mono; [apply MetalFacts.metal_reassign_calls|]. simpl.
      intros res new _. destruct (hasBody resp); calls_go; by eexists _, _.
Qed.

(** X17: a manager whose desired port is left to the cluster.  Until
    [reconcileServices] has seen the upstream service, [reconcileNodes]
    returns the port error without any call.  After a pass of
    [reconcileServices] that reached an upstream service with ports,
    [reconcileNodes] goes on to the listing if the first port's target value
    is not zero; if it is zero (a named target port), both ports stay zero
    and [reconcileNodes] keeps returning the port error. *)
Theorem port_discovery_unblocks_reconcileNodes
    E nodes svcs mode mode' (m : Metal.controlPlaneEndpointManager) h
    ipList ip svc p0 ps :
  Metal.inProcess m = false →
  Metal.apiServerPort m = 0 →
  Metal.eipTag m ≠ "" →
  ipResSvr_List E h (Metal.projectID m) = (ipList, None) →
  ipReservationByAllTags [Metal.eipTag m] ipList = Some ip →
  (length (resAssignments ip) ≤ 1)%nat →
  List.find isDefaultKubernetes svcs = Some svc →
  Ports (Spec svc) = p0 :: ps →
  let s1 := (Metal.reconcileServices E svcs mode (St m h)).2 in
  Metal.reconcileNodes E nodes mode' (St m h)
  = (Some Metal.errPortUnknown, St m h) ∧
  if decide (IntVal (TargetPort p0) = 0)
  then Metal.reconcileNodes E nodes mode' s1 = (Some Metal.errPortUnknown, s1)
  else ∃ res l new,
         Metal.reconcileNodes E nodes mode' s1
         = (res, St (mgr s1)
                   (trace s1 ++ EvList (Metal.projectID m) l :: new)).
Proof.
  intros Hin Hport Htag Hlist Hres Hlen Hfind Hports s1.
  split.
  { unfold Metal.reconcileNodes. unfold_run. rewrite Hin.
    by rewrite decide_True by done. }
  assert (Hm1 : mgr s1 = adoptPorts svc m).
  { subst s1. unfold Metal.reconcileServices. unfold_run.
    rewrite decide_False by done. simpl. rewrite Hlist. simpl. rewrite Hres.
    rewrite decide_False by lia.
    destruct (Metal.reconcileServicesLoop E _ mode svcs _) as [res s'] eqn:Hrun.
    apply MetalServices.reconcileServicesLoop_run in Hrun as [Hm _].
    simpl. by rewrite Hm, Hfind. }
  destruct s1 as [m1 h1]. simpl in Hm1. subst m1.
  unfold adoptPorts. rewrite Hports. simpl.
  destruct (decide (Metal.apiServerPort m = 0)) as [_|Hne]; [|done]. simpl.
  set (v := IntVal (TargetPort p0)).
  set (m1 := Metal.set_apiServerPort v (Metal.set_nodeAPIServerPort v m)).
  assert (Hin1 : Metal.inProcess m1 = false) by exact Hin.
  assert (Htag1 : Metal.eipTag m1 ≠ "") by exact Htag.
  destruct (decide (v = 0)) as [Hv|Hv].
  - unfold Metal.reconcileNodes. unfold_run. rewrite Hin.
    by rewrite decide_True by done.
  - unfold Metal.reconcileNodes.
    unfold mbind at 1, M_bind, get_mgr. simpl. rewrite Hin.
    rewrite decide_False by done.
    unfold mbind, M_bind, put_mgr, get_mgr, mret, M_ret. simpl.
    destruct (metal_reconcileNodesGuarded_lists E
                (Metal.set_inProcess true m1) nodes Htag1 h1)
      as (res & new & -> & l & rest & ->).
    simpl. exists res, l, rest. by rewrite metal_guard_roundtrip.
Qed.

Lemma port_discovery_unblocks_reconcileNodes_witness :
  let s1 := (Metal.reconcileServices Scenario.E [Scenario.upstream] ModeSync
               (St Scenario.unsetMetal [])).2 in
  Metal.reconcileNodes Scenario.E Scenario.nodes ModeSync
    (St Scenario.unsetMetal [])
  = (Some Metal.errPortUnknown, St Scenario.unsetMetal []) ∧
  ∃ res l new,
    Metal.reconcileNodes Scenario.E Scenario.nodes ModeSync s1
    = (res, St (mgr s1) (trace s1 ++ EvList "proj" l :: new)).
Proof.
  intros s1.
  destruct (port_discovery_unblocks_reconcileNodes Scenario.E Scenario.nodes
              [Scenario.upstream] ModeSync ModeSync Scenario.unsetMetal []
              [Scenario.otherIP; Scenario.eip] Scenario.eip Scenario.upstream
              {| spName := "https"; spProtocol := "TCP"; Port := 443;
                 TargetPort := {| iosType := 0; IntVal := 6443; StrVal := "" |};
                 NodePort := 0 |} [])
    as [Hbefore Hafter].
  - reflexivity.
  - reflexivity.
  - done.
  - reflexivity.
  - by vm_compute.
  - simpl. lia.
  - by vm_compute.
  - reflexivity.
  - split; [exact Hbefore|exact Hafter].
Defined.
